(** * Communication driver for Xilinx soft peripherals (SPI, I2C)

    A shallow embedding of [Xilinx/Common/Communication.c]: the SPI and I2C
    functions are state-passing programs over the caller's buffer, the
    persistent configuration word and the trace of register accesses.
    Register reads are answered by an arbitrary peripheral, a function of
    the whole access history.  The UART functions have no part in the
    transfer protocol; they follow over an access history of their own. *)

From Stdlib Require Import ZArith List Bool Lia.
Import ListNotations.
Local Open Scope Z_scope.

(** ** Machine integers *)

(** [u32]: conversion to the driver's 32-bit unsigned type. *)
Definition u32 (z : Z) : Z := z mod 2 ^ 32.

(** Conversion to [unsigned char]. *)
Definition u8 (z : Z) : Z := z mod 2 ^ 8.

(** Conversion to the [char] result type of the SPI functions.  Whether
    plain [char] is signed depends on the compiler, so a result is kept as
    its eight-bit pattern: [to_char (-1)] is 0xFF. *)
Definition to_char (z : Z) : Z := z mod 2 ^ 8.

(** The same eight bits read as a signed [char]. *)
Definition schar (b : Z) : Z := if b <? 128 then b else b - 256.

(** The value the caller sees in a [char] result of eight bits [b], with a
    compiler whose plain [char] is signed ([true]) or unsigned ([false]). *)
Definition char_value (signed_char : bool) (b : Z) : Z :=
  if signed_char then schar b else b.

(** ** Registers and bit positions *)

(** Modelled from the spec: the register offsets of [Communication.h], a file
    that is not part of the sources at hand.  The spec fixes one constant
    offset per register of a peripheral instance and treats the values as
    opaque, so a register is a name below the base address of its core. *)
Inductive spi_offset := SRR | SPICR | SPISR | SPIDTR | SPIDRR | SPISSR.
Inductive i2c_offset := CR | SR | TX_FIFO | RX_FIFO | RX_FIFO_PIRQ.

Inductive Addr :=
| SPI_BASEADDR (off : spi_offset)
| I2C_BASEADDR (off : i2c_offset).

Definition Addr_eqb (a b : Addr) : bool :=
  match a, b with
  | SPI_BASEADDR SRR, SPI_BASEADDR SRR
  | SPI_BASEADDR SPICR, SPI_BASEADDR SPICR
  | SPI_BASEADDR SPISR, SPI_BASEADDR SPISR
  | SPI_BASEADDR SPIDTR, SPI_BASEADDR SPIDTR
  | SPI_BASEADDR SPIDRR, SPI_BASEADDR SPIDRR
  | SPI_BASEADDR SPISSR, SPI_BASEADDR SPISSR
  | I2C_BASEADDR CR, I2C_BASEADDR CR
  | I2C_BASEADDR SR, I2C_BASEADDR SR
  | I2C_BASEADDR TX_FIFO, I2C_BASEADDR TX_FIFO
  | I2C_BASEADDR RX_FIFO, I2C_BASEADDR RX_FIFO
  | I2C_BASEADDR RX_FIFO_PIRQ, I2C_BASEADDR RX_FIFO_PIRQ => true
  | _, _ => false
  end.

(** Bit positions inside the SPI control register.  The header that defines
    them is absent as well, so they are parameters of the development; the
    transaction-inhibit position has to be a valid shift of an [int] one. *)
Class SPICR_bits := {
  LSBFirst : Z;
  MasterTranInh : Z;
  ManualSlaveAssEn : Z;
  RxFifoReset : Z;
  TxFifoReset : Z;
  CHPA : Z;
  CPOL : Z;
  Master : Z;
  SPE : Z;
  LOOP : Z;
  MasterTranInh_range : 0 <= MasterTranInh < 31
}.

(** [1 << MasterTranInh] and [~(1 << MasterTranInh)] as 32-bit operands. *)
Definition inh {bits : SPICR_bits} : Z := u32 (Z.shiftl 1 MasterTranInh).
Definition not_inh {bits : SPICR_bits} : Z :=
  u32 (Z.lnot (Z.shiftl 1 MasterTranInh)).

(** The control register layout of the AXI Quad SPI core. *)
#[refine] Instance axi_quad_spi : SPICR_bits := {|
  LSBFirst := 9; MasterTranInh := 8; ManualSlaveAssEn := 7;
  RxFifoReset := 6; TxFifoReset := 5; CHPA := 4; CPOL := 3;
  Master := 2; SPE := 1; LOOP := 0 |}.
Proof. lia. Defined.

(** ** Observable events and program state *)

Inductive Event :=
| In32 (a : Addr) (v : Z)      (* Xil_In32 returned v *)
| Out32 (a : Addr) (v : Z)     (* Xil_Out32 wrote v *)
| DelayMs (n : Z).             (* TIME_DelayMs *)

(** [trace] holds the newest event first.  [mem] is the caller's buffer, the
    object the [data] / [dataBuffer] argument points to. *)
Record State := mkState {
  configValue : Z;
  mem : list Z;
  trace : list Event
}.

Definition set_configValue (s : State) (v : Z) : State :=
  mkState v (mem s) (trace s).
Definition set_mem (s : State) (m : list Z) : State :=
  mkState (configValue s) m (trace s).
Definition emit (s : State) (e : Event) : State :=
  mkState (configValue s) (mem s) (e :: trace s).

(** ** A state and error monad *)

Inductive result (A : Type) :=
| Ok (a : A)
| OutOfBounds        (* access outside the buffer: undefined in C *)
| OutOfFuel.         (* a loop of the model ran out of fuel *)
Arguments Ok {A} a.
Arguments OutOfBounds {A}.
Arguments OutOfFuel {A}.

Definition M (A : Type) : Type := State -> result (A * State).

Definition ret {A} (a : A) : M A := fun s => Ok (a, s).

Definition bind {A B} (m : M A) (k : A -> M B) : M B :=
  fun s => match m s with
           | Ok (a, s') => k a s'
           | OutOfBounds => OutOfBounds
           | OutOfFuel => OutOfFuel
           end.

Definition out_of_fuel {A} : M A := fun _ => OutOfFuel.

Declare Scope drv_scope.
Delimit Scope drv_scope with drv.
Notation "x <- m ;; k" := (bind m (fun x => k))
  (at level 61, m at next level, right associativity) : drv_scope.
Notation "m ;;; k" := (bind m (fun _ => k))
  (at level 61, right associativity) : drv_scope.
Local Open Scope drv_scope.

(** The events a computation adds to the trace, newest first. *)
Definition run_events {A} (m : M A) (s : State) : list Event :=
  match m s with
  | Ok (_, s') => firstn (length (trace s') - length (trace s))%nat (trace s')
  | _ => []
  end.

(** ** Local variables of the transfer functions *)

Record Locals := mkLocals {
  cfgValue : Z;
  SPIStatus : Z;
  rxCnt : Z;
  txCnt : Z;
  timeout : Z
}.

Definition set_cfgValue (l : Locals) (v : Z) : Locals :=
  mkLocals v (SPIStatus l) (rxCnt l) (txCnt l) (timeout l).
Definition set_SPIStatus (l : Locals) (v : Z) : Locals :=
  mkLocals (cfgValue l) v (rxCnt l) (txCnt l) (timeout l).
Definition set_rxCnt (l : Locals) (v : Z) : Locals :=
  mkLocals (cfgValue l) (SPIStatus l) v (txCnt l) (timeout l).
Definition set_txCnt (l : Locals) (v : Z) : Locals :=
  mkLocals (cfgValue l) (SPIStatus l) (rxCnt l) v (timeout l).
Definition set_timeout (l : Locals) (v : Z) : Locals :=
  mkLocals (cfgValue l) (SPIStatus l) (rxCnt l) (txCnt l) v.

(** ** Trace observations *)

(** A read of register [a]. *)
Definition is_In32 (a : Addr) (e : Event) : bool :=
  match e with In32 b _ => Addr_eqb a b | _ => false end.

(** A read of any register. *)
Definition is_read (e : Event) : bool :=
  match e with In32 _ _ => true | _ => false end.

(** A read of the I2C status register; a pop of the I2C RX FIFO. *)
Definition sr_read : Event -> bool := is_In32 (I2C_BASEADDR SR).
Definition rx_read : Event -> bool := is_In32 (I2C_BASEADDR RX_FIFO).

(** A read of the SPI status register that shows the polled flag set. *)
Definition spi_busy (e : Event) : bool :=
  match e with
  | In32 (SPI_BASEADDR SPISR) v => Z.land v 0x01 =? 1
  | _ => false
  end.

(** A read of the I2C status register that shows the RX FIFO empty. *)
Definition i2c_busy (e : Event) : bool :=
  match e with
  | In32 (I2C_BASEADDR SR) v => negb (Z.land v 0x00000040 =? 0)
  | _ => false
  end.

(** Length of the run of [p]-events at the newest end of a trace, paired
    with the length of the longest run of consecutive [p]-events in it. *)
Fixpoint runs (p : Event -> bool) (tr : list Event) : Z * Z :=
  match tr with
  | e :: older =>
      let '(r, m) := runs p older in
      let r' := if p e then r + 1 else 0 in
      (r', Z.max r' m)
  | [] => (0, 0)
  end.

Definition run (p : Event -> bool) (tr : list Event) : Z := fst (runs p tr).
Definition max_run (p : Event -> bool) (tr : list Event) : Z := snd (runs p tr).

(** Number of [p]-events of a trace. *)
Fixpoint count (p : Event -> bool) (tr : list Event) : Z :=
  match tr with
  | e :: older => (if p e then 1 else 0) + count p older
  | [] => 0
  end.

(** The values read from register [a], oldest first, of a newest-first
    trace. *)
Fixpoint reads_of (a : Addr) (tr : list Event) : list Z :=
  match tr with
  | In32 b v :: older =>
      if Addr_eqb a b then reads_of a older ++ [v] else reads_of a older
  | _ :: older => reads_of a older
  | [] => []
  end.

(** The value last written to register [a], if any. *)
Fixpoint last_write (a : Addr) (tr : list Event) : option Z :=
  match tr with
  | Out32 b v :: older => if Addr_eqb a b then Some v else last_write a older
  | _ :: older => last_write a older
  | [] => None
  end.

(** A status poll used up its whole countdown: the trace holds a run of
    [ceiling + 1] status reads that all show the polled flag set. *)
Definition spi_poll_exhausted (tr : list Event) : bool :=
  0x10000 <=? max_run spi_busy tr.

Definition i2c_poll_exhausted (tr : list Event) : bool :=
  0x1000000 <=? max_run i2c_busy tr.

(** ** Concrete peripherals used to exercise the model *)

(** Status registers read as all-zero (SPI: data received, I2C: data
    available); a data register returns the number of events so far. *)
Definition dev_ready (h : list Event) (a : Addr) : Z :=
  match a with
  | SPI_BASEADDR SPIDRR | I2C_BASEADDR RX_FIFO => 0xA0 + Z.of_nat (length h)
  | _ => 0
  end.

(** Every register reads as 0x41: both polled flags, bit 0 of SPISR and
    bit 6 of SR, stay set forever. *)
Definition dev_stalled (h : list Event) (a : Addr) : Z := 0x41.

(** The I2C slave delivers two bytes and then stalls; SPI is always ready. *)
Definition dev_two_bytes (h : list Event) (a : Addr) : Z :=
  match a with
  | I2C_BASEADDR SR => if count rx_read h <? 2 then 0 else 0x40
  | I2C_BASEADDR RX_FIFO => 0x111 * (1 + count rx_read h)
  | _ => 0
  end.

Section Driver.

Context {bits : SPICR_bits}.

(** The peripheral: what a read of a register returns after a given history
    of accesses (newest first). *)
Variable dev : list Event -> Addr -> Z.

(** ** Collaborators: register access, delay, buffer access *)

Definition Xil_In32 (a : Addr) : M Z :=
  fun s => let v := u32 (dev (trace s) a) in Ok (v, emit s (In32 a v)).

Definition Xil_Out32 (a : Addr) (v : Z) : M unit :=
  fun s => Ok (tt, emit s (Out32 a v)).

Definition TIME_DelayMs (n : Z) : M unit :=
  fun s => Ok (tt, emit s (DelayMs n)).

(** [data[i]] as an rvalue. *)
Definition load (i : Z) : M Z :=
  fun s => match nth_error (mem s) (Z.to_nat i) with
           | Some b => Ok (b, s)
           | None => OutOfBounds
           end.

Fixpoint update (m : list Z) (i : nat) (v : Z) : list Z :=
  match m, i with
  | [], _ => []
  | _ :: m', O => v :: m'
  | b :: m', S i' => b :: update m' i' v
  end.

(** [data[i] = v], the value converted to [unsigned char]. *)
Definition store (i : Z) (v : Z) : M unit :=
  fun s => if (Z.to_nat i <? length (mem s))%nat
           then Ok (tt, set_mem s (update (mem s) (Z.to_nat i) (u8 v)))
           else OutOfBounds.

Definition get_configValue : M Z := fun s => Ok (configValue s, s).
Definition put_configValue (v : Z) : M unit :=
  fun s => Ok (tt, set_configValue s v).

(** ** Loops *)

(** [while (cond) body], where the body may leave the function with a
    [return] (right injection). *)
Fixpoint while {R} (fuel : nat) (cond : Locals -> bool)
    (body : Locals -> M (Locals + R)) (l : Locals) : M (Locals + R) :=
  if cond l then
    match fuel with
    | O => out_of_fuel
    | S fuel' =>
        r <- body l ;;
        match r with
        | inl l' => while fuel' cond body l'
        | inr v => ret (inr v)
        end
    end
  else ret (inl l).

(** The states in which a loop evaluates its condition. *)
Inductive loop_head {R} (cond : Locals -> bool)
    (body : Locals -> M (Locals + R)) (l0 : Locals) (s0 : State)
  : Locals -> State -> Prop :=
| head_first : loop_head cond body l0 s0 l0 s0
| head_next l s l' s' :
    loop_head cond body l0 s0 l s ->
    cond l = true ->
    body l s = Ok (inl l', s') ->
    loop_head cond body l0 s0 l' s'.

(** ** SPI_Init *)

Definition bool_int (b : bool) : Z := if b then 1 else 0.

Definition SPI_Init (lsbFirst clockFreq clockPol clockEdg : Z) : M Z :=
  cv <- get_configValue ;;
  put_configValue
    (Z.lor cv
       (u32 (Z.lor (Z.shiftl lsbFirst LSBFirst)
            (Z.lor (Z.shiftl 1 MasterTranInh)
            (Z.lor (Z.shiftl 1 ManualSlaveAssEn)
            (Z.lor (Z.shiftl 1 RxFifoReset)
            (Z.lor (Z.shiftl 0 TxFifoReset)
            (Z.lor (Z.shiftl (bool_int (clockEdg =? 0)) CHPA)
            (Z.lor (Z.shiftl clockPol CPOL)
            (Z.lor (Z.shiftl 1 Master)
            (Z.lor (Z.shiftl 1 SPE)
                   (Z.shiftl 0 LOOP)))))))))))) ;;;
  Xil_Out32 (SPI_BASEADDR SPISSR) 0xFFFFFFFF ;;;
  cv <- get_configValue ;;
  Xil_Out32 (SPI_BASEADDR SPICR) cv ;;;
  ret (to_char 0).

(** ** SPI_Write *)

(** [do { SPIStatus = Xil_In32(SPISR); } while (((SPIStatus & 0x01) == 1) && timeout--);]
    The post-decrement wraps the unsigned counter from 0 to 0xFFFFFFFF. *)
Fixpoint SPI_Write_poll (fuel : nat) (l : Locals) : M Locals :=
  match fuel with
  | O => out_of_fuel
  | S fuel' =>
      v <- Xil_In32 (SPI_BASEADDR SPISR) ;;
      let l := set_SPIStatus l v in
      if Z.land (SPIStatus l) 0x01 =? 1 then
        let old := timeout l in
        let l := set_timeout l (u32 (old - 1)) in
        if old =? 0 then ret l else SPI_Write_poll fuel' l
      else ret l
  end.

(** One pass through the body of [while (txCnt < bytesNumber)]. *)
Definition SPI_Write_body (bytesNumber : Z) (l : Locals) : M (Locals + Z) :=
  l <- SPI_Write_poll (S (Z.to_nat (timeout l))) l ;;
  if timeout l =? u32 (-1) then
    let l := set_cfgValue l (Z.lor (cfgValue l) (u32 (Z.shiftl 1 MasterTranInh))) in
    Xil_Out32 (SPI_BASEADDR SPICR) (cfgValue l) ;;;
    Xil_Out32 (SPI_BASEADDR SRR) 0x0000000A ;;;
    Xil_Out32 (SPI_BASEADDR SPISSR) 0xFFFFFFFF ;;;
    Xil_Out32 (SPI_BASEADDR SPICR) (cfgValue l) ;;;
    ret (inr (to_char (-1)))
  else
    let l := set_timeout l 0xFFFF in
    l <- (if rxCnt l <? bytesNumber then
            v <- Xil_In32 (SPI_BASEADDR SPIDRR) ;;
            store (rxCnt l) v ;;;
            ret (set_rxCnt l (u32 (rxCnt l + 1)))
          else ret l) ;;
    let l := set_txCnt l (u32 (txCnt l + 1)) in
    l <- (if txCnt l <? bytesNumber then
            let l := set_cfgValue l
                       (Z.lor (cfgValue l) (u32 (Z.shiftl 1 MasterTranInh))) in
            Xil_Out32 (SPI_BASEADDR SPICR) (cfgValue l) ;;;
            d <- load (txCnt l) ;;
            Xil_Out32 (SPI_BASEADDR SPIDTR) d ;;;
            let l := set_cfgValue l
                       (Z.land (cfgValue l)
                          (u32 (Z.lnot (Z.shiftl 1 MasterTranInh)))) in
            Xil_Out32 (SPI_BASEADDR SPICR) (cfgValue l) ;;;
            ret l
          else ret l) ;;
    ret (inl l).

(** Everything before the transfer loop. *)
Definition SPI_Write_prologue (slaveDeviceId : Z) : M Locals :=
  cv <- get_configValue ;;
  let l := mkLocals cv 0 0 0 0xFFFF in
  Xil_Out32 (SPI_BASEADDR SPICR) (cfgValue l) ;;;
  Xil_Out32 (SPI_BASEADDR SPISSR) (u32 (Z.lnot (Z.shiftl 0x00000001 0))) ;;;
  d <- load 0 ;;
  Xil_Out32 (SPI_BASEADDR SPIDTR) d ;;;
  let l := set_cfgValue l
             (Z.land (cfgValue l) (u32 (Z.lnot (Z.shiftl 1 MasterTranInh)))) in
  Xil_Out32 (SPI_BASEADDR SPICR) (cfgValue l) ;;;
  ret l.

Definition SPI_Write (slaveDeviceId : Z) (bytesNumber : Z) : M Z :=
  l <- SPI_Write_prologue slaveDeviceId ;;
  r <- while (Z.to_nat bytesNumber) (fun l => txCnt l <? bytesNumber)
         (SPI_Write_body bytesNumber) l ;;
  match r with
  | inr v => ret v
  | inl l =>
      let l := set_cfgValue l
                 (Z.lor (cfgValue l) (u32 (Z.shiftl 1 MasterTranInh))) in
      Xil_Out32 (SPI_BASEADDR SPICR) (cfgValue l) ;;;
      Xil_Out32 (SPI_BASEADDR SPISSR) 0xFFFFFFFF ;;;
      ret (to_char bytesNumber)
  end.

(** ** SPI_Read *)

Fixpoint SPI_Read_poll (fuel : nat) (l : Locals) : M Locals :=
  match fuel with
  | O => out_of_fuel
  | S fuel' =>
      v <- Xil_In32 (SPI_BASEADDR SPISR) ;;
      let l := set_SPIStatus l v in
      if Z.land (SPIStatus l) 0x01 =? 1 then
        let old := timeout l in
        let l := set_timeout l (u32 (old - 1)) in
        if old =? 0 then ret l else SPI_Read_poll fuel' l
      else ret l
  end.

Definition SPI_Read_body (bytesNumber : Z) (l : Locals) : M (Locals + Z) :=
  l <- SPI_Read_poll (S (Z.to_nat (timeout l))) l ;;
  if timeout l =? u32 (-1) then
    let l := set_cfgValue l (Z.lor (cfgValue l) (u32 (Z.shiftl 1 MasterTranInh))) in
    Xil_Out32 (SPI_BASEADDR SPICR) (cfgValue l) ;;;
    Xil_Out32 (SPI_BASEADDR SRR) 0x0000000A ;;;
    Xil_Out32 (SPI_BASEADDR SPISSR) 0xFFFFFFFF ;;;
    Xil_Out32 (SPI_BASEADDR SPICR) (cfgValue l) ;;;
    ret (inr (to_char (-1)))
  else
    let l := set_timeout l 0xFFFF in
    l <- (if rxCnt l <? bytesNumber then
            v <- Xil_In32 (SPI_BASEADDR SPIDRR) ;;
            store (rxCnt l) v ;;;
            ret (set_rxCnt l (u32 (rxCnt l + 1)))
          else ret l) ;;
    let l := set_txCnt l (u32 (txCnt l + 1)) in
    l <- (if txCnt l <? bytesNumber then
            let l := set_cfgValue l
                       (Z.lor (cfgValue l) (u32 (Z.shiftl 1 MasterTranInh))) in
            Xil_Out32 (SPI_BASEADDR SPICR) (cfgValue l) ;;;
            d <- load (txCnt l) ;;
            Xil_Out32 (SPI_BASEADDR SPIDTR) d ;;;
            let l := set_cfgValue l
                       (Z.land (cfgValue l)
                          (u32 (Z.lnot (Z.shiftl 1 MasterTranInh)))) in
            Xil_Out32 (SPI_BASEADDR SPICR) (cfgValue l) ;;;
            ret l
          else ret l) ;;
    ret (inl l).

Definition SPI_Read_prologue (slaveDeviceId : Z) : M Locals :=
  cv <- get_configValue ;;
  let l := mkLocals cv 0 0 0 0xFFFF in
  Xil_Out32 (SPI_BASEADDR SPICR) (cfgValue l) ;;;
  Xil_Out32 (SPI_BASEADDR SPISSR) (u32 (Z.lnot (Z.shiftl 0x00000001 0))) ;;;
  d <- load 0 ;;
  Xil_Out32 (SPI_BASEADDR SPIDTR) d ;;;
  let l := set_cfgValue l
             (Z.land (cfgValue l) (u32 (Z.lnot (Z.shiftl 1 MasterTranInh)))) in
  Xil_Out32 (SPI_BASEADDR SPICR) (cfgValue l) ;;;
  ret l.

Definition SPI_Read (slaveDeviceId : Z) (bytesNumber : Z) : M Z :=
  l <- SPI_Read_prologue slaveDeviceId ;;
  r <- while (Z.to_nat bytesNumber) (fun l => txCnt l <? bytesNumber)
         (SPI_Read_body bytesNumber) l ;;
  match r with
  | inr v => ret v
  | inl l =>
      let l := set_cfgValue l
                 (Z.lor (cfgValue l) (u32 (Z.shiftl 1 MasterTranInh))) in
      Xil_Out32 (SPI_BASEADDR SPICR) (cfgValue l) ;;;
      Xil_Out32 (SPI_BASEADDR SPISSR) 0xFFFFFFFF ;;;
      ret (to_char bytesNumber)
  end.

(** ** I2C_Init, I2C_Read, I2C_Write *)

Definition I2C_Init (clockFreq : Z) : M Z :=
  Xil_Out32 (I2C_BASEADDR CR) 0x00 ;;;
  Xil_Out32 (I2C_BASEADDR RX_FIFO_PIRQ) 0x0F ;;;
  Xil_Out32 (I2C_BASEADDR CR) 0x02 ;;;
  Xil_Out32 (I2C_BASEADDR CR) 0x01 ;;;
  ret (u8 0).

(** [while ((Xil_In32(SR) & 0x00000040) && (timeout--));] *)
Fixpoint I2C_Read_poll (fuel : nat) (l : Locals) : M Locals :=
  match fuel with
  | O => out_of_fuel
  | S fuel' =>
      v <- Xil_In32 (I2C_BASEADDR SR) ;;
      if negb (Z.land v 0x00000040 =? 0) then
        let old := timeout l in
        let l := set_timeout l (u32 (old - 1)) in
        if old =? 0 then ret l else I2C_Read_poll fuel' l
      else ret l
  end.

Definition I2C_Read_body (l : Locals) : M (Locals + Z) :=
  l <- I2C_Read_poll (S (Z.to_nat (timeout l))) l ;;
  if timeout l =? u32 (-1) then
    Xil_Out32 (I2C_BASEADDR CR) 0x00 ;;;
    Xil_Out32 (I2C_BASEADDR RX_FIFO_PIRQ) 0x0F ;;;
    Xil_Out32 (I2C_BASEADDR CR) 0x02 ;;;
    Xil_Out32 (I2C_BASEADDR CR) 0x01 ;;;
    ret (inr (u8 (rxCnt l)))
  else
    let l := set_timeout l 0xFFFFFF in
    v <- Xil_In32 (I2C_BASEADDR RX_FIFO) ;;
    store (rxCnt l) (Z.land v 0xFFFF) ;;;
    let l := set_rxCnt l (u32 (rxCnt l + 1)) in
    ret (inl l).

Definition I2C_Read_prologue (slaveAddress bytesNumber : Z) : M Locals :=
  let l := mkLocals 0 0 0 0 0xFFFFFF in
  Xil_Out32 (I2C_BASEADDR CR) 0x002 ;;;
  Xil_Out32 (I2C_BASEADDR CR) 0x001 ;;;
  TIME_DelayMs 10 ;;;
  Xil_Out32 (I2C_BASEADDR TX_FIFO) (Z.lor 0x101 (Z.shiftl slaveAddress 1)) ;;;
  Xil_Out32 (I2C_BASEADDR TX_FIFO) (0x200 + bytesNumber) ;;;
  ret l.

Definition I2C_Read (slaveAddress bytesNumber stopBit : Z) : M Z :=
  l <- I2C_Read_prologue slaveAddress bytesNumber ;;
  r <- while (Z.to_nat bytesNumber) (fun l => rxCnt l <? bytesNumber)
         I2C_Read_body l ;;
  match r with
  | inr v => ret v
  | inl l =>
      TIME_DelayMs 10 ;;;
      ret (u8 (rxCnt l))
  end.

Definition I2C_Write_body (bytesNumber : Z) (l : Locals) : M (Locals + Z) :=
  d <- load (txCnt l) ;;
  Xil_Out32 (I2C_BASEADDR TX_FIFO)
    (if txCnt l =? u32 (bytesNumber - 1) then Z.lor 0x200 d else d) ;;;
  ret (inl (set_txCnt l (u32 (txCnt l + 1)))).

Definition I2C_Write (slaveAddress bytesNumber stopBit : Z) : M Z :=
  let l := mkLocals 0 0 0 0 0 in
  Xil_Out32 (I2C_BASEADDR CR) 0x002 ;;;
  Xil_Out32 (I2C_BASEADDR CR) 0x001 ;;;
  TIME_DelayMs 10 ;;;
  Xil_Out32 (I2C_BASEADDR TX_FIFO) (Z.lor 0x100 (Z.shiftl slaveAddress 1)) ;;;
  r <- while (Z.to_nat bytesNumber) (fun l => txCnt l <? bytesNumber)
         (I2C_Write_body bytesNumber) l ;;
  match r with
  | inr v => ret v
  | inl l =>
      TIME_DelayMs 10 ;;;
      ret (u8 (txCnt l))
  end.

End Driver.

(** ** Events and invariants of the transfer loops *)

Section Invariants.
Context {bits : SPICR_bits}.

(** Events of the part of [SPI_Write] before the loop, newest first. *)
Definition spi_prologue_events (cv d0 : Z) : list Event :=
  [Out32 (SPI_BASEADDR SPICR) (Z.land cv not_inh);
   Out32 (SPI_BASEADDR SPIDTR) d0;
   Out32 (SPI_BASEADDR SPISSR) 0xFFFFFFFE;
   Out32 (SPI_BASEADDR SPICR) cv].

(** Events of the timeout recovery of [SPI_Write], newest first. *)
Definition spi_recovery_events (c : Z) : list Event :=
  [Out32 (SPI_BASEADDR SPICR) c;
   Out32 (SPI_BASEADDR SPISSR) 0xFFFFFFFF;
   Out32 (SPI_BASEADDR SRR) 0x0000000A;
   Out32 (SPI_BASEADDR SPICR) c].

(** What holds whenever [SPI_Write] evaluates its loop condition. *)
Definition spi_inv (n : Z) (s0 : State) (l : Locals) (s : State) : Prop :=
  0 <= txCnt l <= n /\ rxCnt l = txCnt l /\ timeout l = 0xFFFF /\
  cfgValue l = Z.land (configValue s0) not_inh /\
  configValue s = configValue s0 /\
  length (mem s) = length (mem s0) /\
  exists evs d0,
    trace s = evs ++ spi_prologue_events (configValue s0) d0 ++ trace s0 /\
    nth_error (mem s0) 0 = Some d0 /\
    run spi_busy (evs ++ spi_prologue_events (configValue s0) d0) = 0 /\
    max_run spi_busy (evs ++ spi_prologue_events (configValue s0) d0) < 0x10000 /\
    firstn (Z.to_nat (txCnt l)) (mem s) =
      map u8 (reads_of (SPI_BASEADDR SPIDRR) evs).

(** What holds when [SPI_Write] leaves through its timeout branch. *)
Definition spi_exit (s0 : State) (v : Z) (s : State) : Prop :=
  v = to_char (-1) /\
  configValue s = configValue s0 /\
  length (mem s) = length (mem s0) /\
  exists evs d0,
    trace s =
      spi_recovery_events (Z.lor (Z.land (configValue s0) not_inh) inh)
        ++ evs ++ spi_prologue_events (configValue s0) d0 ++ trace s0 /\
    nth_error (mem s0) 0 = Some d0 /\
    0x10000 <= max_run spi_busy (evs ++ spi_prologue_events (configValue s0) d0).


(** Events of the part of [I2C_Read] before the loop, newest first. *)
Definition i2c_prologue_events (slaveAddress bytesNumber : Z) : list Event :=
  [Out32 (I2C_BASEADDR TX_FIFO) (0x200 + bytesNumber);
   Out32 (I2C_BASEADDR TX_FIFO) (Z.lor 0x101 (Z.shiftl slaveAddress 1));
   DelayMs 10;
   Out32 (I2C_BASEADDR CR) 0x001;
   Out32 (I2C_BASEADDR CR) 0x002].

(** Events of the timeout recovery of [I2C_Read], newest first. *)
Definition i2c_recovery_events : list Event :=
  [Out32 (I2C_BASEADDR CR) 0x01;
   Out32 (I2C_BASEADDR CR) 0x02;
   Out32 (I2C_BASEADDR RX_FIFO_PIRQ) 0x0F;
   Out32 (I2C_BASEADDR CR) 0x00].

(** The byte [I2C_Read] stores for a value read from the RX FIFO. *)
Definition i2c_byte (v : Z) : Z := u8 (Z.land v 0xFFFF).

(** What the events [E] of a call of [I2C_Read] satisfy while no poll has
    used up its countdown. *)
Definition i2c_events_ok (E : list Event) : Prop :=
  run i2c_busy E = 0 /\ max_run i2c_busy E < 0x1000000 /\
  run sr_read E = 0 /\ max_run sr_read E <= 0x1000000.

(** What holds whenever [I2C_Read] evaluates its loop condition. *)
Definition i2c_inv (n : Z) (s0 : State) (l : Locals) (s : State) : Prop :=
  0 <= rxCnt l <= n /\ timeout l = 0xFFFFFF /\
  configValue s = configValue s0 /\
  length (mem s) = length (mem s0) /\
  exists E,
    trace s = E ++ trace s0 /\ E <> [] /\
    i2c_events_ok E /\
    count rx_read E = rxCnt l /\
    firstn (Z.to_nat (rxCnt l)) (mem s) =
      map i2c_byte (reads_of (I2C_BASEADDR RX_FIFO) E).

(** What holds when [I2C_Read] leaves through its timeout branch. *)
Definition i2c_exit (n : Z) (s0 : State) (v : Z) (s : State) : Prop :=
  configValue s = configValue s0 /\
  length (mem s) = length (mem s0) /\
  exists E,
    trace s = i2c_recovery_events ++ E ++ trace s0 /\
    v = count rx_read E /\ 0 <= v < n /\
    0x1000000 <= max_run i2c_busy E /\
    max_run sr_read E <= 0x1000000 /\
    firstn (Z.to_nat v) (mem s) =
      map i2c_byte (reads_of (I2C_BASEADDR RX_FIFO) E).


(** The TX FIFO pushes of the first [k] passes through the loop of
    [I2C_Write], oldest first: element [i] of the buffer, with the stop
    marker 0x200 on the element of index [bytesNumber - 1]. *)
Definition i2c_pushes (bytesNumber : Z) (m : list Z) (k : nat) : list Event :=
  map (fun i => Out32 (I2C_BASEADDR TX_FIFO)
                  (if Z.of_nat i =? bytesNumber - 1
                   then Z.lor 0x200 (nth i m 0) else nth i m 0))
      (seq 0 k).

(** What holds whenever [I2C_Write] evaluates its loop condition. *)
Definition i2c_write_inv (n : Z) (pro : list Event) (s0 : State)
    (l : Locals) (s : State) : Prop :=
  0 <= txCnt l <= n /\
  configValue s = configValue s0 /\ mem s = mem s0 /\
  trace s = rev (i2c_pushes n (mem s0) (Z.to_nat (txCnt l))) ++ pro ++ trace s0.

End Invariants.

(** ** A sequence of initialisations *)

(** The state after the calls [SPI_Init(lsbFirst, clockFreq, clockPol,
    clockEdg)] of a list, made one after the other. *)
Fixpoint SPI_Init_calls {bits : SPICR_bits} (calls : list (Z * Z * Z * Z))
    (s : State) : State :=
  match calls with
  | [] => s
  | (lsbFirst, clockFreq, clockPol, clockEdg) :: later =>
      match SPI_Init lsbFirst clockFreq clockPol clockEdg s with
      | Ok (_, s') => SPI_Init_calls later s'
      | _ => s
      end
  end.

(** ** A concrete starting state *)

(** Configuration word as left by [SPI_Init(0, f, 0, 1)] on the AXI layout,
    a four-byte buffer, no access so far. *)
Definition demo_state : State := mkState 0x1C6 [0x11; 0x22; 0x33; 0x44] [].

(** The same word with a buffer of 255 bytes. *)
Definition demo_state_255 : State := mkState 0x1C6 (repeat 0x5A 255) [].

(** ** Proof automation *)

(** Unfolds the state and local-variable updates and projects the fields. *)
Ltac norm :=
  unfold set_cfgValue, set_SPIStatus, set_rxCnt, set_txCnt, set_timeout,
    emit, set_mem, set_configValue in *;
  cbn [cfgValue SPIStatus rxCnt txCnt timeout configValue mem trace] in *.

(** ** Further trace observations *)

(** The values written to register [a], oldest first, of a newest-first
    trace. *)
Fixpoint writes_of (a : Addr) (tr : list Event) : list Z :=
  match tr with
  | Out32 b v :: older =>
      if Addr_eqb a b then writes_of a older ++ [v] else writes_of a older
  | _ :: older => writes_of a older
  | [] => []
  end.

(** A read of the SPI status register; a pop of the SPI RX data register. *)
Definition spisr_read : Event -> bool := is_In32 (SPI_BASEADDR SPISR).
Definition spidrr_read : Event -> bool := is_In32 (SPI_BASEADDR SPIDRR).

(** What holds whenever [SPI_Write] evaluates its loop condition, with the
    buffer and the pushes into the TX FIFO accounted for; [s0] is the state
    at the call. *)
Definition spi_full_inv (n : Z) (s0 : State) (l : Locals) (s : State) : Prop :=
  0 <= txCnt l <= n /\ rxCnt l = txCnt l /\ timeout l = 0xFFFF /\
  configValue s = configValue s0 /\
  length (mem s) = length (mem s0) /\
  skipn (Z.to_nat (txCnt l)) (mem s) = skipn (Z.to_nat (txCnt l)) (mem s0) /\
  exists evs,
    trace s = evs ++ trace s0 /\
    run spi_busy evs = 0 /\ max_run spi_busy evs < 0x10000 /\
    firstn (Z.to_nat (txCnt l)) (mem s) =
      map u8 (reads_of (SPI_BASEADDR SPIDRR) evs) /\
    count spidrr_read evs = txCnt l /\
    writes_of (SPI_BASEADDR SPIDTR) evs =
      firstn (Z.to_nat (Z.min (txCnt l + 1) n)) (mem s0) /\
    count spisr_read evs <= txCnt l * 0x10000.

(** What holds when [SPI_Write] leaves through its timeout branch after [k]
    bytes. *)
Definition spi_full_exit (n : Z) (s0 : State) (v : Z) (s : State) : Prop :=
  v = to_char (-1) /\
  configValue s = configValue s0 /\
  length (mem s) = length (mem s0) /\
  exists evs k,
    trace s = evs ++ trace s0 /\
    0x10000 <= max_run spi_busy evs /\
    0 <= k < n /\
    count spidrr_read evs = k /\
    firstn (Z.to_nat k) (mem s) =
      map u8 (reads_of (SPI_BASEADDR SPIDRR) evs) /\
    skipn (Z.to_nat k) (mem s) = skipn (Z.to_nat k) (mem s0) /\
    writes_of (SPI_BASEADDR SPIDTR) evs = firstn (Z.to_nat (k + 1)) (mem s0) /\
    count spisr_read evs <= (k + 1) * 0x10000.

(** What holds whenever [I2C_Read] evaluates its loop condition, with the
    buffer, the request and the status reads accounted for; [s0] is the
    state at the call and [newer] holds the events since the request. *)
Definition i2c_full_inv (sa n : Z) (s0 : State) (l : Locals) (s : State)
  : Prop :=
  0 <= rxCnt l <= n /\ timeout l = 0xFFFFFF /\
  configValue s = configValue s0 /\
  length (mem s) = length (mem s0) /\
  skipn (Z.to_nat (rxCnt l)) (mem s) = skipn (Z.to_nat (rxCnt l)) (mem s0) /\
  exists newer,
    trace s = newer ++ i2c_prologue_events sa n ++ trace s0 /\
    Forall (fun e => is_read e = true) newer /\
    run i2c_busy newer = 0 /\ max_run i2c_busy newer < 0x1000000 /\
    count rx_read newer = rxCnt l /\
    firstn (Z.to_nat (rxCnt l)) (mem s) =
      map u8 (reads_of (I2C_BASEADDR RX_FIFO) newer) /\
    count sr_read newer <= rxCnt l * 0x1000000.

(** What holds when [I2C_Read] leaves through its timeout branch. *)
Definition i2c_full_exit (sa n : Z) (s0 : State) (v : Z) (s : State) : Prop :=
  configValue s = configValue s0 /\
  length (mem s) = length (mem s0) /\
  skipn (Z.to_nat v) (mem s) = skipn (Z.to_nat v) (mem s0) /\
  0 <= v < n /\
  exists newer,
    trace s = i2c_recovery_events ++ newer
              ++ i2c_prologue_events sa n ++ trace s0 /\
    Forall (fun e => is_read e = true) newer /\
    0x1000000 <= max_run i2c_busy newer /\
    count rx_read newer = v /\
    firstn (Z.to_nat v) (mem s) =
      map u8 (reads_of (I2C_BASEADDR RX_FIFO) newer) /\
    count sr_read newer <= (v + 1) * 0x1000000.

(** ** UART *)

(** Modelled from the spec: the addresses of the four UART registers, macros
    of [Communication.h], a file that is not part of the sources at hand; a
    register is a name, as for SPI and I2C. *)
Inductive uart_reg := UART_CNTRL | UART_STAT | UART_TX | UART_RX.

Definition uart_reg_eqb (a b : uart_reg) : bool :=
  match a, b with
  | UART_CNTRL, UART_CNTRL | UART_STAT, UART_STAT
  | UART_TX, UART_TX | UART_RX, UART_RX => true
  | _, _ => false
  end.

(** The bit masks of the UART control and status registers, macros of the
    same header, are parameters. *)
Class UART_masks := {
  UART_RST_TX : Z;
  UART_RST_RX : Z;
  UART_EN_INTR : Z;
  UART_RX_VALID : Z
}.

(** The masks of the AXI UART Lite core. *)
Instance uartlite : UART_masks := {|
  UART_RST_TX := 0x01; UART_RST_RX := 0x02;
  UART_EN_INTR := 0x10; UART_RX_VALID := 0x01 |}.

Inductive UartEvent :=
| UartIn (r : uart_reg) (v : Z)      (* Xil_In32 returned v *)
| UartOut (r : uart_reg) (v : Z).    (* Xil_Out32 wrote v *)

(** The UART functions touch nothing but the UART registers: their state is
    the trace of accesses, newest first. *)
Definition UM (A : Type) : Type := list UartEvent -> result (A * list UartEvent).

Definition uret {A} (a : A) : UM A := fun h => Ok (a, h).

Definition ubind {A B} (m : UM A) (k : A -> UM B) : UM B :=
  fun h => match m h with
           | Ok (a, h') => k a h'
           | OutOfBounds => OutOfBounds
           | OutOfFuel => OutOfFuel
           end.

Declare Scope uart_scope.
Delimit Scope uart_scope with uart.
Notation "x <- m ;; k" := (ubind m (fun x => k))
  (at level 61, m at next level, right associativity) : uart_scope.
Notation "m ;;; k" := (ubind m (fun _ => k))
  (at level 61, right associativity) : uart_scope.

(** The values written to a UART register, oldest first. *)
Fixpoint uart_writes_of (a : uart_reg) (h : list UartEvent) : list Z :=
  match h with
  | UartOut b v :: older =>
      if uart_reg_eqb a b then uart_writes_of a older ++ [v]
      else uart_writes_of a older
  | _ :: older => uart_writes_of a older
  | [] => []
  end.



Section UART.

Context {masks : UART_masks}.

(** The UART: what a read of a register returns after a given history. *)
Variable udev : list UartEvent -> uart_reg -> Z.

Local Open Scope uart_scope.

Definition UART_In32 (a : uart_reg) : UM Z :=
  fun h => let v := u32 (udev h a) in Ok (v, UartIn a v :: h).

Definition UART_Out32 (a : uart_reg) (v : Z) : UM unit :=
  fun h => Ok (tt, UartOut a v :: h).

(** The history after [j] further reads of the status register. *)
Fixpoint after_polls (j : nat) (h : list UartEvent) : list UartEvent :=
  match j with
  | O => h
  | S j' => after_polls j' (UartIn UART_STAT (u32 (udev h UART_STAT)) :: h)
  end.

(** From every history, the status register shows the bits of [mask]
    non-zero after fewer than [k] polls that show them zero. *)
Definition shows_within (mask : Z) (k : nat) : Prop :=
  forall h, exists j, (j < k)%nat /\
    Z.land (u32 (udev (after_polls j h) UART_STAT)) mask <> 0 /\
    forall i, (i < j)%nat ->
      Z.land (u32 (udev (after_polls i h) UART_STAT)) mask = 0.

(** Of the status reads that follow history [h], the one after [j] earlier
    reads is the first to show the bits of [mask] non-zero. *)
Definition first_shown (mask : Z) (h : list UartEvent) (j : nat) : Prop :=
  Z.land (u32 (udev (after_polls j h) UART_STAT)) mask <> 0 /\
  forall i, (i < j)%nat ->
    Z.land (u32 (udev (after_polls i h) UART_STAT)) mask = 0.

(** ** UART_Init *)

Definition UART_Init (baudRate : Z) : UM Z :=
  UART_Out32 UART_CNTRL
    (u32 (Z.lor (Z.lor UART_RST_TX UART_RST_RX) (Z.lnot UART_EN_INTR))) ;;;
  uret (to_char 0).

(** ** UART_WriteChar *)

(** [while ((Xil_In32(UART_STAT) & 0x4) == 0x0);]  The loop has no bound in
    the source; [fuel] bounds the polls of the model. *)
Fixpoint UART_WriteChar_wait (fuel : nat) : UM unit :=
  match fuel with
  | O => fun _ => OutOfFuel
  | S fuel' =>
      v <- UART_In32 UART_STAT ;;
      if Z.land v 0x4 =? 0x0 then UART_WriteChar_wait fuel' else uret tt
  end.

Definition UART_WriteChar (fuel : nat) (data : Z) : UM unit :=
  UART_WriteChar_wait fuel ;;;
  UART_Out32 UART_TX (u32 data) ;;;
  UART_WriteChar_wait fuel.

(** ** UART_ReadChar *)

(** [while ((Xil_In32(UART_STAT) & UART_RX_VALID) == 0x00);] *)
Fixpoint UART_ReadChar_wait (fuel : nat) : UM unit :=
  match fuel with
  | O => fun _ => OutOfFuel
  | S fuel' =>
      v <- UART_In32 UART_STAT ;;
      if Z.land v UART_RX_VALID =? 0x00 then UART_ReadChar_wait fuel'
      else uret tt
  end.

(** The result is the character stored through [data]. *)
Definition UART_ReadChar (fuel : nat) : UM Z :=
  UART_ReadChar_wait fuel ;;;
  v <- UART_In32 UART_RX ;;
  let data := to_char (Z.land v 0xFF) in
  (if (data =? 10) || (data =? 13)
   then UART_Out32 UART_CNTRL (u32 (Z.lor UART_RST_RX UART_RST_TX))
   else uret tt) ;;;
  uret data.

(** ** UART_WriteString *)


End UART.

(** A UART whose status register shows TX empty and RX valid at every third
    read, and whose RX register holds a line feed. *)
Definition uart_every_third (h : list UartEvent) (a : uart_reg) : Z :=
  match a with
  | UART_STAT => if (Z.of_nat (length h) mod 3 =? 2) then 0x05 else 0
  | UART_RX => 0x30A
  | _ => 0
  end.

(** A UART that shows TX empty only once something was written to
    [UART_TX]. *)
Definition uart_empty_after_write (h : list UartEvent) (a : uart_reg) : Z :=
  match uart_writes_of UART_TX h with
  | [] => 0x00
  | _ :: _ => 0x04
  end.

(** * Properties *)

(** ** Machine integers and masks *)

Lemma u32_small z : 0 <= z < 2 ^ 32 -> u32 z = z.
Proof. intros H. unfold u32. now apply Z.mod_small. Qed.

Lemma u8_small z : 0 <= z < 2 ^ 8 -> u8 z = z.
Proof. intros H. unfold u8. now apply Z.mod_small. Qed.

Lemma to_char_small z : 0 <= z < 2 ^ 8 -> to_char z = z.
Proof. intros H. unfold to_char. now apply Z.mod_small. Qed.

Lemma u32_testbit z i :
  0 <= i -> Z.testbit (u32 z) i = (i <? 32) && Z.testbit z i.
Proof.
  intros Hi. unfold u32.
  destruct (Z.ltb_spec i 32).
  - now rewrite Z.mod_pow2_bits_low.
  - now rewrite Z.mod_pow2_bits_high by lia.
Qed.

Section Masks.
Context {bits : SPICR_bits}.

Lemma inh_testbit i :
  0 <= i -> Z.testbit inh i = (i =? MasterTranInh).
Proof.
  intros Hi. pose proof MasterTranInh_range as Hk.
  unfold inh. rewrite u32_testbit by assumption.
  rewrite Z.shiftl_1_l, Z.pow2_bits_eqb by lia.
  rewrite (Z.eqb_sym MasterTranInh i).
  destruct (Z.eqb_spec i MasterTranInh) as [E|E]; [|apply andb_false_r].
  destruct (Z.ltb_spec i 32); [reflexivity | lia].
Qed.

Lemma not_inh_testbit i :
  0 <= i -> Z.testbit not_inh i = (i <? 32) && negb (i =? MasterTranInh).
Proof.
  intros Hi. pose proof MasterTranInh_range as Hk.
  unfold not_inh. rewrite u32_testbit by assumption.
  rewrite Z.lnot_spec by assumption.
  rewrite Z.shiftl_1_l, Z.pow2_bits_eqb by lia.
  now rewrite (Z.eqb_sym MasterTranInh i).
Qed.

Lemma inh_set_testbit x : Z.testbit (Z.lor x inh) MasterTranInh = true.
Proof.
  pose proof MasterTranInh_range as Hk.
  rewrite Z.lor_spec, inh_testbit by lia.
  rewrite Z.eqb_refl. apply orb_true_r.
Qed.

(** Clearing the inhibit bit undoes setting it. *)
Lemma clear_set_clear x :
  Z.land (Z.lor (Z.land x not_inh) inh) not_inh = Z.land x not_inh.
Proof.
  apply Z.bits_inj'. intros i Hi.
  rewrite !Z.land_spec, Z.lor_spec, Z.land_spec.
  rewrite inh_testbit, not_inh_testbit by assumption.
  destruct (Z.testbit x i), (i <? 32), (i =? MasterTranInh); reflexivity.
Qed.

(** [(x & ~m) | m] keeps the low 32 bits of [x] and sets the inhibit bit. *)
Lemma set_after_clear x :
  Z.lor (Z.land x not_inh) inh = Z.lor (u32 x) (Z.shiftl 1 MasterTranInh).
Proof.
  pose proof MasterTranInh_range as Hk.
  apply Z.bits_inj'. intros i Hi.
  rewrite !Z.lor_spec, Z.land_spec.
  rewrite inh_testbit, not_inh_testbit, u32_testbit by assumption.
  rewrite Z.shiftl_1_l, Z.pow2_bits_eqb by lia.
  rewrite (Z.eqb_sym MasterTranInh i).
  destruct (Z.testbit x i), (i <? 32), (i =? MasterTranInh); reflexivity.
Qed.

End Masks.

(** ** Runs of events *)

Lemma run_cons p e tr :
  run p (e :: tr) = if p e then run p tr + 1 else 0.
Proof. unfold run. simpl. destruct (runs p tr). reflexivity. Qed.

Lemma max_run_cons p e tr :
  max_run p (e :: tr) = Z.max (run p (e :: tr)) (max_run p tr).
Proof. unfold max_run, run. simpl. destruct (runs p tr). reflexivity. Qed.

Lemma run_nonneg p tr : 0 <= run p tr.
Proof.
  induction tr as [|e tr IH]; [unfold run; simpl; lia|].
  rewrite run_cons. destruct (p e); lia.
Qed.

Lemma run_le_max p tr : run p tr <= max_run p tr.
Proof.
  destruct tr as [|e tr]; [unfold run, max_run; simpl; lia|].
  rewrite max_run_cons. lia.
Qed.

Lemma run_app_all p l tr :
  Forall (fun e => p e = true) l ->
  run p (l ++ tr) = Z.of_nat (length l) + run p tr.
Proof.
  induction 1 as [|e l He _ IH]; [reflexivity|].
  change ((e :: l) ++ tr) with (e :: l ++ tr).
  rewrite run_cons, He, IH. simpl length. lia.
Qed.

Lemma max_run_app_all p l tr :
  Forall (fun e => p e = true) l ->
  max_run p (l ++ tr) = Z.max (Z.of_nat (length l) + run p tr) (max_run p tr).
Proof.
  induction 1 as [|e l He Hl IH].
  - simpl. pose proof (run_le_max p tr). lia.
  - change ((e :: l) ++ tr) with (e :: l ++ tr).
    rewrite max_run_cons, IH, run_cons, He, run_app_all by assumption.
    simpl length. lia.
Qed.

Lemma run_cons_false p e tr : p e = false -> run p (e :: tr) = 0.
Proof. intros H. now rewrite run_cons, H. Qed.

Lemma max_run_cons_false p e tr :
  p e = false -> max_run p (e :: tr) = max_run p tr.
Proof.
  intros H. rewrite max_run_cons, run_cons, H.
  pose proof (run_nonneg p tr). pose proof (run_le_max p tr). lia.
Qed.

(** The events a computation added are the new prefix of its trace. *)
Lemma run_events_prefix {A} (m : M A) s a s' evs :
  m s = Ok (a, s') -> trace s' = evs ++ trace s -> run_events m s = evs.
Proof.
  intros Hm Ht. unfold run_events. rewrite Hm, Ht.
  rewrite length_app.
  replace (length evs + length (trace s) - length (trace s))%nat
    with (length evs) by lia.
  rewrite firstn_app, firstn_all, Nat.sub_diag. simpl. apply app_nil_r.
Qed.

(** ** The loop rule *)

Lemma while_rule {R} (cond : Locals -> bool) (body : Locals -> M (Locals + R))
    (Inv : Locals -> State -> Prop) (Exit : R -> State -> Prop)
    (measure : Locals -> nat) :
  (forall l, cond l = true -> (0 < measure l)%nat) ->
  (forall l s, Inv l s -> cond l = true ->
     exists r s', body l s = Ok (r, s') /\
       match r with
       | inl l' => Inv l' s' /\ (measure l' < measure l)%nat
       | inr v => Exit v s'
       end) ->
  forall fuel l s, Inv l s -> (measure l <= fuel)%nat ->
    exists r s', while fuel cond body l s = Ok (r, s') /\
      match r with
      | inl l' => Inv l' s' /\ cond l' = false
      | inr v => Exit v s'
      end.
Proof.
  intros Hpos Hbody fuel.
  induction fuel as [|fuel IH]; intros l s HI Hm.
  - simpl. destruct (cond l) eqn:Hc.
    + apply Hpos in Hc. lia.
    + exists (inl l), s. auto.
  - simpl. destruct (cond l) eqn:Hc.
    + destruct (Hbody l s HI Hc) as (r & s' & Hb & Hr).
      unfold bind. rewrite Hb. destruct r as [l'|v].
      * destruct Hr as [HI' Hlt]. apply IH; [assumption | lia].
      * exists (inr v), s'. auto.
    + exists (inl l), s. auto.
Qed.

(** ** Buffer updates *)

Lemma update_length m i v : length (update m i v) = length m.
Proof.
  revert i. induction m as [|b m IH]; intros [|i]; simpl; auto.
Qed.

Lemma firstn_update_snoc m i v :
  (i < length m)%nat -> firstn (S i) (update m i v) = firstn i m ++ [v].
Proof.
  revert i. induction m as [|b m IH]; intros [|i] Hi; simpl in *; try lia.
  - reflexivity.
  - f_equal. apply IH. lia.
Qed.

Lemma nth_error_in_range (m : list Z) i :
  (i < length m)%nat -> exists b, nth_error m i = Some b.
Proof.
  intros Hi. destruct (nth_error m i) eqn:E; [eauto|].
  apply nth_error_None in E. lia.
Qed.

(** ** Reads of one register in a trace *)

Lemma reads_of_app a l tr :
  reads_of a (l ++ tr) = reads_of a tr ++ reads_of a l.
Proof.
  induction l as [|e l IH]; simpl; [now rewrite app_nil_r|].
  destruct e as [b v|b v|n]; try assumption.
  destruct (Addr_eqb a b); [|assumption].
  now rewrite IH, app_assoc.
Qed.

Lemma spi_busy_not_pop l :
  Forall (fun e => spi_busy e = true) l ->
  reads_of (SPI_BASEADDR SPIDRR) l = [].
Proof.
  induction 1 as [|e l He _ IH]; [reflexivity|].
  destruct e as [[[]|[]] v|b v|n]; simpl in *; try discriminate. assumption.
Qed.

Section SPI.
Context {bits : SPICR_bits}.
Variable dev : list Event -> Addr -> Z.

(** A status poll started with a counter below the fuel returns; it leaves
    either on a clear flag with the counter it had at that read, or on a
    zero counter, after [timeout + 1] reads that all show the flag. *)
Lemma SPI_Write_poll_spec fuel : forall l s,
  0 <= timeout l < Z.of_nat fuel -> timeout l < 2 ^ 32 ->
  exists l' busy,
    SPI_Write_poll dev fuel l s =
      Ok (l', mkState (configValue s) (mem s)
                (In32 (SPI_BASEADDR SPISR) (SPIStatus l') :: busy ++ trace s)) /\
    Forall (fun e => spi_busy e = true) busy /\
    cfgValue l' = cfgValue l /\ rxCnt l' = rxCnt l /\ txCnt l' = txCnt l /\
    ((Z.land (SPIStatus l') 1 =? 1) = false /\
       timeout l' = timeout l - Z.of_nat (length busy) /\ 0 <= timeout l'
     \/ (Z.land (SPIStatus l') 1 =? 1) = true /\
        Z.of_nat (length busy) = timeout l /\ timeout l' = u32 (-1)).
Proof.
  induction fuel as [|fuel IH]; intros l s Ht Hmax; [simpl in Ht; lia|].
  cbn [SPI_Write_poll]. unfold bind at 1. unfold Xil_In32 at 1.
  set (v := u32 (dev (trace s) (SPI_BASEADDR SPISR))).
  cbn [SPIStatus set_SPIStatus timeout].
  destruct (Z.land v 1 =? 1) eqn:Hb.
  - destruct (Z.eqb_spec (timeout l) 0) as [H0|H0].
    + exists (set_timeout (set_SPIStatus l v) (u32 (timeout l - 1))), [].
      split; [reflexivity|]. simpl.
      repeat split; auto. right. rewrite H0. auto.
    + destruct (IH (set_timeout (set_SPIStatus l v) (u32 (timeout l - 1)))
                   (emit s (In32 (SPI_BASEADDR SPISR) v)))
        as (l' & busy & Hrun & Hall & Hc & Hr & Htx & Hcase).
      * simpl. rewrite u32_small by lia. lia.
      * simpl. rewrite u32_small by lia. lia.
      * exists l', (busy ++ [In32 (SPI_BASEADDR SPISR) v]).
        split; [rewrite Hrun; simpl; now rewrite <- app_assoc|].
        split; [apply Forall_app; split; [assumption|]; constructor; [simpl; exact Hb|constructor]|].
        simpl in Hc, Hr, Htx, Hcase. rewrite u32_small in Hcase by lia.
        repeat split; try assumption.
        rewrite length_app. simpl length.
        destruct Hcase as [(A & B & C)|(A & B & C)]; [left|right]; repeat split; auto; lia.
  - exists (set_SPIStatus l v), []. split; [reflexivity|]. simpl.
    repeat split; auto. left. rewrite Hb. repeat split; lia.
Qed.


Lemma SPI_Write_body_spec n s0 l s :
  0 <= n <= 255 -> (Z.to_nat n <= length (mem s0))%nat ->
  spi_inv n s0 l s -> (txCnt l <? n) = true ->
  exists r s', SPI_Write_body dev n l s = Ok (r, s') /\
    match r with
    | inl l' => spi_inv n s0 l' s' /\
                (Z.to_nat (n - txCnt l') < Z.to_nat (n - txCnt l))%nat
    | inr v => spi_exit s0 v s'
    end.
Proof.
  intros Hn Hlen (Htx & Hrx & Hto & Hcfg & Hcv & Hmem & evs & d0 & Htr & Hd0 & Hrun & Hmax & Hbuf) Hc.
  apply Z.ltb_lt in Hc.
  unfold SPI_Write_body. unfold bind at 1.
  destruct (SPI_Write_poll_spec (S (Z.to_nat (timeout l))) l s)
    as (l1 & busy & Hpoll & Hall & Hc1 & Hr1 & Ht1 & Hcase); [lia | lia |].
  rewrite Hpoll. clear Hpoll.
  destruct l as [cfg st rx tx to], l1 as [cfg1 st1 rx1 tx1 to1].
  cbn [cfgValue SPIStatus rxCnt txCnt timeout] in *. subst cfg1 rx1 tx1 rx to.
  set (pro := spi_prologue_events (configValue s0) d0) in *.
  assert (Hbusy_len : Z.of_nat (length busy) <= 0xFFFF) by (destruct Hcase; lia).
  assert (Hrun1 : run spi_busy (busy ++ evs ++ pro) = Z.of_nat (length busy)).
  { rewrite run_app_all by assumption. lia. }
  assert (Hmax1 : max_run spi_busy (busy ++ evs ++ pro)
                  = Z.max (Z.of_nat (length busy)) (max_run spi_busy (evs ++ pro))).
  { rewrite max_run_app_all by assumption. now rewrite Hrun, Z.add_0_r. }
  destruct Hcase as [(Hst & Hto1 & Hge)|(Hst & Hlen1 & Hto1)].
  - (* the flag cleared in time *)
    assert (Hne : (to1 =? u32 (-1)) = false).
    { apply Z.eqb_neq. change (u32 (-1)) with 4294967295. lia. }
    rewrite Hne. clear Hne.
    assert (Hlt : (tx <? n) = true) by now apply Z.ltb_lt.
    assert (Hidx : (Z.to_nat tx < length (mem s))%nat) by lia.
    pose proof Hidx as Hidxb. apply Nat.ltb_lt in Hidxb.
    unfold bind, Xil_In32, Xil_Out32, ret, load, store. norm.
    rewrite Hlt. norm. rewrite Hidxb. norm.
    set (v := u32 (dev _ (SPI_BASEADDR SPIDRR))).
    rewrite !(u32_small (tx + 1)) by lia.
    assert (Hbuf' : firstn (Z.to_nat (tx + 1)) (update (mem s) (Z.to_nat tx) (u8 v))
                    = map u8 (reads_of (SPI_BASEADDR SPIDRR)
                         (In32 (SPI_BASEADDR SPIDRR) v
                          :: In32 (SPI_BASEADDR SPISR) st1 :: busy ++ evs))).
    { replace (Z.to_nat (tx + 1)) with (S (Z.to_nat tx)) by lia.
      rewrite firstn_update_snoc by assumption.
      cbn [reads_of Addr_eqb]. rewrite reads_of_app.
      rewrite (spi_busy_not_pop busy) by assumption.
      rewrite app_nil_r, map_app, Hbuf. reflexivity. }
    destruct (Z.ltb_spec (tx + 1) n) as [Hmore|Hlast].
    + (* another byte follows *)
      assert (Hld : exists d, nth_error (update (mem s) (Z.to_nat tx) (u8 v))
                                (Z.to_nat (tx + 1)) = Some d).
      { apply nth_error_in_range. rewrite update_length. lia. }
      destruct Hld as (d & Hd).
      norm. rewrite Hd.
      eexists _, _. split; [reflexivity|].
      split; [|cbn [txCnt]; lia].
      unfold spi_inv. norm.
      split; [lia|]. split; [reflexivity|]. split; [reflexivity|].
      split; [rewrite Hcfg; apply clear_set_clear|].
      split; [assumption|]. split; [rewrite update_length; assumption|].
      eexists (_ :: _ :: _ :: _ :: _ :: busy ++ evs), d0.
      split; [rewrite Htr; cbn [app]; rewrite <- !app_assoc; reflexivity|].
      split; [assumption|].
      cbn [app]. rewrite <- !app_assoc.
      split; [now rewrite run_cons_false|].
      split.
      * rewrite !max_run_cons_false; try reflexivity; [|cbn [spi_busy]; exact Hst].
        fold pro. rewrite Hmax1. lia.
      * cbn [reads_of Addr_eqb]. exact Hbuf'.
    + (* that was the last byte *)
      eexists _, _. split; [reflexivity|].
      split; [|cbn [txCnt]; lia].
      unfold spi_inv. norm.
      split; [lia|]. split; [reflexivity|]. split; [reflexivity|].
      split; [assumption|].
      split; [assumption|]. split; [rewrite update_length; assumption|].
      eexists (_ :: _ :: busy ++ evs), d0.
      split; [rewrite Htr; cbn [app]; rewrite <- !app_assoc; reflexivity|].
      split; [assumption|].
      cbn [app]. rewrite <- !app_assoc.
      split; [now rewrite run_cons_false|].
      split.
      * rewrite !max_run_cons_false; try reflexivity; [|cbn [spi_busy]; exact Hst].
        fold pro. rewrite Hmax1. lia.
      * exact Hbuf'.
  - (* the countdown ran out *)
    rewrite Hto1, Z.eqb_refl.
    unfold bind, Xil_In32, Xil_Out32, ret, load, store. norm.
    eexists _, _. split; [reflexivity|].
    unfold spi_exit. norm.
    split; [reflexivity|]. split; [assumption|]. split; [assumption|].
    exists (In32 (SPI_BASEADDR SPISR) st1 :: busy ++ evs), d0.
    split; [rewrite Htr, Hcfg; cbn [app spi_recovery_events]; rewrite <- !app_assoc; reflexivity|].
    split; [assumption|].
    cbn [app]. rewrite <- !app_assoc. fold pro.
    rewrite max_run_cons, run_cons. cbn [spi_busy]. rewrite Hst, Hrun1. lia.
Qed.


(** The whole call: it returns, and it ends either after the epilogue with
    no exhausted poll in its events, or in the timeout branch with one. *)
Lemma SPI_Write_run id n s d0 :
  0 <= n <= 255 -> (Z.to_nat n <= length (mem s))%nat ->
  nth_error (mem s) 0 = Some d0 ->
  let pro := spi_prologue_events (configValue s) d0 in
  let c := Z.lor (Z.land (configValue s) not_inh) inh in
  exists r s' evs,
    SPI_Write dev id n s = Ok (r, s') /\
    trace s' = evs ++ pro ++ trace s /\
    configValue s' = configValue s /\
    length (mem s') = length (mem s) /\
    ((r = n /\
      max_run spi_busy (evs ++ pro) < 0x10000 /\
      exists evs',
        evs = Out32 (SPI_BASEADDR SPISSR) 0xFFFFFFFF
              :: Out32 (SPI_BASEADDR SPICR) c :: evs' /\
        firstn (Z.to_nat n) (mem s') =
          map u8 (reads_of (SPI_BASEADDR SPIDRR) evs'))
     \/
     (r = to_char (-1) /\
      0x10000 <= max_run spi_busy (evs ++ pro) /\
      exists evs', evs = spi_recovery_events c ++ evs')).
Proof.
  intros Hn Hlen Hd0 pro c.
  unfold SPI_Write, SPI_Write_prologue.
  unfold bind, get_configValue, Xil_Out32, load, ret. norm.
  change (Z.to_nat 0) with 0%nat. rewrite Hd0. norm.
  change (u32 (Z.lnot (Z.shiftl 1 0))) with 0xFFFFFFFE.
  fold not_inh. fold inh.
  set (l0 := mkLocals (Z.land (configValue s) not_inh) 0 0 0 65535).
  set (s1 := mkState _ _ _).
  assert (Hinv : spi_inv n s l0 s1).
  { unfold spi_inv, l0, s1. norm.
    repeat (split; [first [lia | reflexivity]|]).
    exists [], d0. cbn [app firstn map reads_of Z.to_nat].
    repeat split; try assumption; try reflexivity. }
  destruct (while_rule (fun l => txCnt l <? n) (SPI_Write_body dev n)
              (spi_inv n s) (spi_exit s)
              (fun l => Z.to_nat (n - txCnt l))) with
    (fuel := Z.to_nat n) (l := l0) (s := s1)
    as (r & s2 & Hw & Hr).
  - intros l Hc. apply Z.ltb_lt in Hc. lia.
  - intros l s' HI Hc. now apply SPI_Write_body_spec.
  - exact Hinv.
  - unfold l0. cbn [txCnt]. lia.
  - rewrite Hw.
    destruct r as [l2|v].
    + destruct Hr as ((Htx & Hrx & Hto & Hcfg & Hcv & Hmem & evs & d0' & Htr & Hd0' & Hrun & Hmax & Hbuf) & Hc).
      apply Z.ltb_ge in Hc.
      assert (d0' = d0) by congruence. subst d0'.
      eexists _, _, (_ :: _ :: evs). split; [reflexivity|]. norm.
      split; [rewrite Htr; reflexivity|].
      split; [assumption|]. split; [assumption|].
      left. split; [apply to_char_small; lia|].
      split.
      * cbn [app]. rewrite !max_run_cons_false by reflexivity. exact Hmax.
      * exists evs. split; [rewrite Hcfg; reflexivity|].
        replace n with (txCnt l2) by lia. exact Hbuf.
    + destruct Hr as (Hv & Hcv & Hmem & evs & d0' & Htr & Hd0' & Hmax).
      assert (d0' = d0) by congruence. subst d0'.
      eexists _, _, (spi_recovery_events c ++ evs). split; [reflexivity|].
      split; [rewrite Htr, <- app_assoc; reflexivity|].
      split; [assumption|]. split; [assumption|].
      right. split; [assumption|].
      split; [|now exists evs].
      cbn [app spi_recovery_events]. rewrite !max_run_cons_false by reflexivity.
      exact Hmax.
Qed.

Lemma nonempty_first (m : list Z) :
  (1 <= length m)%nat -> exists d0, nth_error m 0 = Some d0.
Proof. destruct m as [|d0 m]; simpl; [lia | eauto]. Qed.

Lemma spi_prologue_no_pop cv d0 :
  reads_of (SPI_BASEADDR SPIDRR) (spi_prologue_events cv d0) = [].
Proof. reflexivity. Qed.

(** C1: for a count of 1 to 255 and a buffer of at least count elements, a
    call of SPI_Write during which no status poll uses up its countdown
    overwrites the first count elements of the buffer with the bytes read
    from the RX data register, in the order they were read, and ends with
    the transaction-inhibit bit set in the last value written to SPICR and
    all-ones as the last value written to SPISSR.  Its result is count
    converted to the return type char: the caller sees count where char is
    unsigned or count is at most 127, count - 256 where char is signed and
    count is 128 or more, and for count 255 the very char that the timeout
    branch returns for -1. *)
Theorem SPI_Write_success_char id n s :
  1 <= n <= 255 -> (Z.to_nat n <= length (mem s))%nat ->
  spi_poll_exhausted (run_events (SPI_Write dev id n) s) = false ->
  exists r s',
    SPI_Write dev id n s = Ok (r, s') /\
    char_value false r = n /\
    char_value true r = (if n <? 128 then n else n - 256) /\
    (n = 255 -> r = to_char (-1)) /\
    firstn (Z.to_nat n) (mem s') =
      map u8 (reads_of (SPI_BASEADDR SPIDRR)
                (run_events (SPI_Write dev id n) s)) /\
    (exists c, last_write (SPI_BASEADDR SPICR) (trace s') = Some c /\
               Z.testbit c MasterTranInh = true) /\
    last_write (SPI_BASEADDR SPISSR) (trace s') = Some 0xFFFFFFFF.
Proof.
  intros Hn Hlen Hex.
  destruct (nonempty_first (mem s)) as (d0 & Hd0); [lia|].
  destruct (SPI_Write_run id n s d0) as (r & s' & evs & Hrun & Htr & _ & _ & Hcase);
    [lia | assumption | assumption |].
  rewrite app_assoc in Htr.
  rewrite (run_events_prefix _ _ _ _ _ Hrun Htr) in *.
  unfold spi_poll_exhausted in Hex. apply Z.leb_gt in Hex.
  destruct Hcase as [(Hr & _ & evs' & Hevs & Hbuf)|(_ & Hmax & _)]; [|lia].
  subst r evs. exists n, s'. split; [assumption|].
  split; [reflexivity|]. split; [reflexivity|].
  split; [intros ->; reflexivity|].
  split.
  - rewrite Hbuf. cbn [app reads_of]. rewrite reads_of_app.
    rewrite spi_prologue_no_pop. reflexivity.
  - rewrite Htr. cbn [app last_write Addr_eqb].
    split; [|reflexivity].
    eexists. split; [reflexivity|]. apply inh_set_testbit.
Qed.

(** C2: for a count of at least one, when some status poll of SPI_Write
    sees the flag set at each of its 0x10000 reads (countdown from 0xFFFF
    used up), the call returns -1 (the char 0xFF), and its last four
    register accesses are, in this order: the configuration with
    transaction-inhibit set written to SPICR, 0x0000000A written to SRR,
    all-ones written to SPISSR, and the same configuration written to SPICR
    again. *)
Theorem SPI_Write_timeout id n s :
  1 <= n <= 255 -> (Z.to_nat n <= length (mem s))%nat ->
  spi_poll_exhausted (run_events (SPI_Write dev id n) s) = true ->
  exists s' first c,
    SPI_Write dev id n s = Ok (to_char (-1), s') /\
    schar (to_char (-1)) = -1 /\
    c = Z.lor (u32 (configValue s)) (Z.shiftl 1 MasterTranInh) /\
    Z.testbit c MasterTranInh = true /\
    rev (run_events (SPI_Write dev id n) s) =
      first ++ [Out32 (SPI_BASEADDR SPICR) c;
                Out32 (SPI_BASEADDR SRR) 0x0000000A;
                Out32 (SPI_BASEADDR SPISSR) 0xFFFFFFFF;
                Out32 (SPI_BASEADDR SPICR) c].
Proof.
  intros Hn Hlen Hex.
  destruct (nonempty_first (mem s)) as (d0 & Hd0); [lia|].
  destruct (SPI_Write_run id n s d0) as (r & s' & evs & Hrun & Htr & _ & _ & Hcase);
    [lia | assumption | assumption |].
  rewrite app_assoc in Htr.
  rewrite (run_events_prefix _ _ _ _ _ Hrun Htr) in *.
  unfold spi_poll_exhausted in Hex. apply Z.leb_le in Hex.
  destruct Hcase as [(_ & Hmax & _)|(Hr & _ & evs' & Hevs)]; [lia|].
  subst r evs.
  exists s', (rev (evs' ++ spi_prologue_events (configValue s) d0)),
    (Z.lor (u32 (configValue s)) (Z.shiftl 1 MasterTranInh)).
  split; [assumption|]. split; [reflexivity|]. split; [reflexivity|].
  split.
  - rewrite <- set_after_clear. apply inh_set_testbit.
  - rewrite <- app_assoc, rev_app_distr. rewrite set_after_clear. reflexivity.
Qed.

(** C5, as the code has it: whatever slaveDeviceId is, the second register
    access of SPI_Write writes 0xFFFFFFFE to SPISSR, which asserts the line
    of slave 0 and leaves every other line high. *)
Theorem SPI_Write_selects_slave_0 id n s :
  0 <= n <= 255 -> (Z.to_nat n <= length (mem s))%nat -> mem s <> [] ->
  exists r s' rest,
    SPI_Write dev id n s = Ok (r, s') /\
    rev (run_events (SPI_Write dev id n) s) =
      Out32 (SPI_BASEADDR SPICR) (configValue s)
      :: Out32 (SPI_BASEADDR SPISSR) 0xFFFFFFFE :: rest /\
    forall i, 1 <= i < 32 -> Z.testbit 0xFFFFFFFE i = true.
Proof.
  intros Hn Hlen Hne.
  destruct (nonempty_first (mem s)) as (d0 & Hd0).
  { destruct (mem s); [congruence | simpl; lia]. }
  destruct (SPI_Write_run id n s d0) as (r & s' & evs & Hrun & Htr & _ & _ & _);
    [lia | assumption | assumption |].
  rewrite app_assoc in Htr.
  rewrite (run_events_prefix _ _ _ _ _ Hrun Htr).
  exists r, s'. eexists. split; [assumption|].
  split.
  - rewrite rev_app_distr. cbn [spi_prologue_events rev app]. reflexivity.
  - intros i Hi. change 0xFFFFFFFE with (u32 (Z.lnot (Z.shiftl 1 0))).
    rewrite u32_testbit, Z.lnot_spec, Z.shiftl_1_l, Z.pow2_bits_eqb by lia.
    destruct (Z.ltb_spec i 32); [|lia].
    destruct (Z.eqb_spec 0 i); [lia | reflexivity].
Qed.

(** C8: with a count of zero SPI_Write returns 0 without entering the
    transfer loop, whatever the peripheral does: it reads no register, and
    its six register writes are the prologue, which pushes element 0 of the
    buffer into the TX FIFO, followed by the epilogue. *)
Theorem SPI_Write_count_zero id s :
  mem s <> [] ->
  exists s' d0,
    SPI_Write dev id 0 s = Ok (0, s') /\
    nth_error (mem s) 0 = Some d0 /\
    mem s' = mem s /\
    (forall fuel l s1, 0 <= txCnt l ->
       while fuel (fun l => txCnt l <? 0) (SPI_Write_body dev 0) l s1
       = Ok (inl l, s1)) /\
    rev (run_events (SPI_Write dev id 0) s) =
      [Out32 (SPI_BASEADDR SPICR) (configValue s);
       Out32 (SPI_BASEADDR SPISSR) 0xFFFFFFFE;
       Out32 (SPI_BASEADDR SPIDTR) d0;
       Out32 (SPI_BASEADDR SPICR) (Z.land (configValue s) not_inh);
       Out32 (SPI_BASEADDR SPICR) (Z.lor (Z.land (configValue s) not_inh) inh);
       Out32 (SPI_BASEADDR SPISSR) 0xFFFFFFFF].
Proof.
  intros Hne. destruct s as [cv m tr]. cbn [mem] in Hne.
  destruct m as [|d0 m]; [congruence|].
  assert (Hrun : SPI_Write dev id 0 (mkState cv (d0 :: m) tr) =
    Ok (0, mkState cv (d0 :: m)
             ([Out32 (SPI_BASEADDR SPISSR) 0xFFFFFFFF;
               Out32 (SPI_BASEADDR SPICR) (Z.lor (Z.land cv not_inh) inh);
               Out32 (SPI_BASEADDR SPICR) (Z.land cv not_inh);
               Out32 (SPI_BASEADDR SPIDTR) d0;
               Out32 (SPI_BASEADDR SPISSR) 0xFFFFFFFE;
               Out32 (SPI_BASEADDR SPICR) cv] ++ tr))) by reflexivity.
  eexists _, d0. split; [exact Hrun|].
  split; [reflexivity|]. split; [reflexivity|].
  split.
  { intros fuel l s1 Hl.
    assert (Hc : (txCnt l <? 0) = false) by (apply Z.ltb_ge; lia).
    destruct fuel; cbn [while]; rewrite Hc; reflexivity. }
  erewrite run_events_prefix; [|exact Hrun|reflexivity]. reflexivity.
Qed.

(** C9: SPI_Read and SPI_Write are the same function: on every
    slaveDeviceId, count, buffer, configuration word, access history and
    peripheral they give the same result, that is the same return value,
    the same final buffer and the same trace of register reads and
    writes. *)
Theorem SPI_Read_is_SPI_Write id n s :
  SPI_Read dev id n s = SPI_Write dev id n s.
Proof. reflexivity. Qed.

End SPI.

(** ** Counting events *)

Lemma count_app p l tr : count p (l ++ tr) = count p l + count p tr.
Proof. induction l as [|e l IH]; simpl; [reflexivity | lia]. Qed.

Lemma i2c_busy_sr_read l :
  Forall (fun e => i2c_busy e = true) l ->
  Forall (fun e => sr_read e = true) l.
Proof.
  apply Forall_impl. intros [[[]|[]] v|b v|n]; simpl; auto.
Qed.

Lemma i2c_busy_not_pop l :
  Forall (fun e => i2c_busy e = true) l ->
  reads_of (I2C_BASEADDR RX_FIFO) l = [] /\ count rx_read l = 0.
Proof.
  induction 1 as [|e l He _ IH]; [split; reflexivity|].
  destruct e as [[[]|[]] v|b v|n]; simpl in *; try discriminate. assumption.
Qed.

Section I2C.
Variable dev : list Event -> Addr -> Z.

Lemma I2C_Read_poll_spec fuel : forall l s,
  0 <= timeout l < Z.of_nat fuel -> timeout l < 2 ^ 32 ->
  exists l' v busy,
    I2C_Read_poll dev fuel l s =
      Ok (l', mkState (configValue s) (mem s)
                (In32 (I2C_BASEADDR SR) v :: busy ++ trace s)) /\
    Forall (fun e => i2c_busy e = true) busy /\
    v = u32 (dev (busy ++ trace s) (I2C_BASEADDR SR)) /\
    rxCnt l' = rxCnt l /\
    ((Z.land v 0x40 =? 0) = true /\
       timeout l' = timeout l - Z.of_nat (length busy) /\ 0 <= timeout l'
     \/ (Z.land v 0x40 =? 0) = false /\
        Z.of_nat (length busy) = timeout l /\ timeout l' = u32 (-1)).
Proof.
  induction fuel as [|fuel IH]; intros l s Ht Hmax; [simpl in Ht; lia|].
  cbn [I2C_Read_poll]. unfold bind at 1. unfold Xil_In32 at 1.
  set (v := u32 (dev (trace s) (I2C_BASEADDR SR))).
  destruct (Z.land v 64 =? 0) eqn:Hb; cbn [negb].
  - exists l, v, []. split; [reflexivity|]. simpl.
    repeat split; auto. left. rewrite Hb. repeat split; lia.
  - destruct (Z.eqb_spec (timeout l) 0) as [H0|H0].
    + exists (set_timeout l (u32 (timeout l - 1))), v, [].
      split; [reflexivity|]. simpl.
      repeat split; auto. right. rewrite H0, Hb. auto.
    + destruct (IH (set_timeout l (u32 (timeout l - 1)))
                   (emit s (In32 (I2C_BASEADDR SR) v)))
        as (l' & v' & busy & Hrun & Hall & Hv & Hr & Hcase).
      * simpl. rewrite u32_small by lia. lia.
      * simpl. rewrite u32_small by lia. lia.
      * exists l', v', (busy ++ [In32 (I2C_BASEADDR SR) v]).
        split; [rewrite Hrun; simpl; now rewrite <- app_assoc|].
        split; [apply Forall_app; split; [assumption|]; constructor;
                [simpl; now rewrite Hb|constructor]|].
        simpl in Hr, Hcase, Hv. rewrite u32_small in Hcase by lia.
        split; [rewrite <- app_assoc; exact Hv|].
        split; [assumption|].
        rewrite length_app. simpl length.
        destruct Hcase as [(A & B & C)|(A & B & C)]; [left|right];
          repeat split; auto; lia.
Qed.

(** One pass through the loop body: the last status read of its poll
    decides between the next pass and the timeout branch. *)
Lemma I2C_Read_body_outcome n s0 l s :
  0 <= n <= 255 -> (Z.to_nat n <= length (mem s0))%nat ->
  i2c_inv n s0 l s -> (rxCnt l <? n) = true ->
  exists r s' v busy, I2C_Read_body dev l s = Ok (r, s') /\
    Forall (fun e => sr_read e = true) busy /\
    v = u32 (dev (busy ++ trace s) (I2C_BASEADDR SR)) /\
    match r with
    | inl l' => (Z.land v 0x40 =? 0) = true /\ rxCnt l' = rxCnt l + 1 /\
                i2c_inv n s0 l' s' /\
                (Z.to_nat (n - rxCnt l') < Z.to_nat (n - rxCnt l))%nat
    | inr k => (Z.land v 0x40 =? 0) = false /\ k = rxCnt l /\
               i2c_exit n s0 k s'
    end.
Proof.
  intros Hn Hlen (Hrx & Hto & Hcv & Hmem & E & Htr & HE & (Hrun & Hmax & Hrun' & Hmax') & Hcnt & Hbuf) Hc.
  apply Z.ltb_lt in Hc.
  unfold I2C_Read_body. unfold bind at 1.
  destruct (I2C_Read_poll_spec (S (Z.to_nat (timeout l))) l s)
    as (l1 & st & busy & Hpoll & Hall & Hval & Hr1 & Hcase); [lia | lia |].
  rewrite Hpoll. clear Hpoll.
  destruct l as [cfg sp rx tx to], l1 as [cfg1 sp1 rx1 tx1 to1].
  cbn [cfgValue SPIStatus rxCnt txCnt timeout] in *. subst rx1 to.
  pose proof (i2c_busy_sr_read _ Hall) as Hall'.
  destruct (i2c_busy_not_pop _ Hall) as (Hnopop & Hnocnt).
  assert (Hbusy_len : Z.of_nat (length busy) <= 0xFFFFFF) by (destruct Hcase; lia).
  assert (Hrun1 : run i2c_busy (busy ++ E) = Z.of_nat (length busy)).
  { rewrite run_app_all by assumption. lia. }
  assert (Hmax1 : max_run i2c_busy (busy ++ E)
                  = Z.max (Z.of_nat (length busy)) (max_run i2c_busy E)).
  { rewrite max_run_app_all by assumption. now rewrite Hrun, Z.add_0_r. }
  assert (Hmax2 : max_run sr_read (In32 (I2C_BASEADDR SR) st :: busy ++ E)
                  <= 0x1000000).
  { rewrite max_run_cons, run_cons. cbn [sr_read is_In32 Addr_eqb].
    rewrite max_run_app_all, run_app_all by assumption. lia. }
  assert (Hcnt1 : count rx_read (In32 (I2C_BASEADDR SR) st :: busy ++ E) = rx).
  { cbn [count rx_read is_In32 Addr_eqb]. rewrite count_app. fold rx_read. lia. }
  assert (Hbuf1 : reads_of (I2C_BASEADDR RX_FIFO)
                    (In32 (I2C_BASEADDR SR) st :: busy ++ E)
                  = reads_of (I2C_BASEADDR RX_FIFO) E).
  { cbn [reads_of Addr_eqb]. rewrite reads_of_app, Hnopop. apply app_nil_r. }
  destruct Hcase as [(Hst & Hto1 & Hge)|(Hst & Hlen1 & Hto1)].
  - (* data became available in time *)
    assert (Hne : (to1 =? u32 (-1)) = false).
    { apply Z.eqb_neq. change (u32 (-1)) with 4294967295. lia. }
    rewrite Hne. clear Hne.
    assert (Hidx : (Z.to_nat rx < length (mem s))%nat) by lia.
    pose proof Hidx as Hidxb. apply Nat.ltb_lt in Hidxb.
    unfold bind, Xil_In32, Xil_Out32, ret, load, store. norm.
    rewrite Hidxb. norm.
    set (v := u32 (dev _ (I2C_BASEADDR RX_FIFO))).
    rewrite !(u32_small (rx + 1)) by lia.
    eexists _, _, st, busy. split; [reflexivity|].
    split; [assumption|]. split; [exact Hval|].
    split; [exact Hst|]. split; [reflexivity|].
    split; [|cbn [rxCnt]; lia].
    unfold i2c_inv. norm.
    split; [lia|]. split; [reflexivity|]. split; [assumption|].
    split; [rewrite update_length; assumption|].
    exists (In32 (I2C_BASEADDR RX_FIFO) v :: In32 (I2C_BASEADDR SR) st :: busy ++ E).
    split; [rewrite Htr; cbn [app]; rewrite <- !app_assoc; reflexivity|].
    split; [discriminate|].
    split; [|split].
    + unfold i2c_events_ok.
      rewrite !run_cons_false by reflexivity.
      rewrite (max_run_cons_false sr_read) by reflexivity.
      rewrite !(max_run_cons_false i2c_busy); try reflexivity;
        [|cbn [i2c_busy]; now rewrite Hst].
      rewrite Hmax1. repeat split; lia.
    + change (count rx_read (?e :: ?t)) with (1 + count rx_read t) at 1.
      rewrite Hcnt1. lia.
    + replace (Z.to_nat (rx + 1)) with (S (Z.to_nat rx)) by lia.
      rewrite firstn_update_snoc by assumption.
      change (reads_of (I2C_BASEADDR RX_FIFO) (In32 (I2C_BASEADDR RX_FIFO) v :: ?t))
        with (reads_of (I2C_BASEADDR RX_FIFO) t ++ [v]).
      rewrite Hbuf1, map_app, Hbuf. reflexivity.
  - (* the countdown ran out *)
    rewrite Hto1, Z.eqb_refl.
    unfold bind, Xil_In32, Xil_Out32, ret, load, store. norm.
    eexists _, _, st, busy. split; [reflexivity|].
    split; [assumption|]. split; [exact Hval|].
    split; [exact Hst|]. rewrite (u8_small rx) by lia.
    split; [reflexivity|].
    unfold i2c_exit. norm.
    split; [assumption|]. split; [assumption|].
    exists (In32 (I2C_BASEADDR SR) st :: busy ++ E).
    split; [rewrite Htr; cbn [app i2c_recovery_events]; rewrite <- !app_assoc; reflexivity|].
    rewrite Hcnt1, Hbuf1.
    split; [reflexivity|].
    split; [lia|]. split; [|split; [exact Hmax2 | exact Hbuf]].
    rewrite max_run_cons, run_cons. cbn [i2c_busy]. rewrite Hst, Hrun1.
    cbn [negb]. lia.
Qed.

Lemma I2C_Read_body_spec n s0 l s :
  0 <= n <= 255 -> (Z.to_nat n <= length (mem s0))%nat ->
  i2c_inv n s0 l s -> (rxCnt l <? n) = true ->
  exists r s', I2C_Read_body dev l s = Ok (r, s') /\
    match r with
    | inl l' => i2c_inv n s0 l' s' /\
                (Z.to_nat (n - rxCnt l') < Z.to_nat (n - rxCnt l))%nat
    | inr v => i2c_exit n s0 v s'
    end.
Proof.
  intros Hn Hlen HI Hc.
  destruct (I2C_Read_body_outcome n s0 l s Hn Hlen HI Hc)
    as (r & s' & v & busy & Hrun & _ & _ & Hr).
  exists r, s'. split; [assumption|].
  destruct r as [l'|k]; [destruct Hr as (_ & _ & Hr) | destruct Hr as (_ & _ & Hr)];
    assumption.
Qed.

(** The timeout recovery repeats the register writes of [I2C_Init]. *)
Lemma I2C_Init_events clockFreq s :
  run_events (I2C_Init clockFreq) s = i2c_recovery_events.
Proof.
  eapply run_events_prefix; reflexivity.
Qed.

(** The whole call of [I2C_Read]. *)
Lemma I2C_Read_run sa n sb s :
  0 <= n <= 255 -> (Z.to_nat n <= length (mem s))%nat ->
  exists r s' E,
    I2C_Read dev sa n sb s = Ok (r, s') /\
    trace s' = E ++ trace s /\
    max_run sr_read E <= 0x1000000 /\
    r = count rx_read E /\
    firstn (Z.to_nat r) (mem s') =
      map i2c_byte (reads_of (I2C_BASEADDR RX_FIFO) E) /\
    ((r = n /\ max_run i2c_busy E < 0x1000000 /\
      exists E', E = DelayMs 10 :: E')
     \/
     (0 <= r < n /\ 0x1000000 <= max_run i2c_busy E /\
      exists E', E = i2c_recovery_events ++ E')).
Proof.
  intros Hn Hlen.
  unfold I2C_Read, I2C_Read_prologue.
  unfold bind, Xil_Out32, TIME_DelayMs, ret. norm.
  set (l0 := mkLocals 0 0 0 0 16777215).
  set (s1 := mkState _ _ _).
  assert (Hinv : i2c_inv n s l0 s1).
  { unfold i2c_inv, l0, s1. norm.
    repeat (split; [first [lia | reflexivity]|]).
    exists (i2c_prologue_events sa n).
    split; [reflexivity|]. split; [discriminate|].
    split; [|split; reflexivity].
    unfold i2c_events_ok. cbv. repeat split; congruence. }
  destruct (while_rule (fun l => rxCnt l <? n) (I2C_Read_body dev)
              (i2c_inv n s) (i2c_exit n s)
              (fun l => Z.to_nat (n - rxCnt l))) with
    (fuel := Z.to_nat n) (l := l0) (s := s1)
    as (r & s2 & Hw & Hr).
  - intros l Hc. apply Z.ltb_lt in Hc. lia.
  - intros l s' HI Hc. now apply I2C_Read_body_spec.
  - exact Hinv.
  - unfold l0. cbn [rxCnt]. lia.
  - rewrite Hw. destruct r as [l2|v].
    + destruct Hr as ((Hrx & Hto & Hcv & Hmem & E & Htr & HE & (Hrun & Hmax & Hrun' & Hmax') & Hcnt & Hbuf) & Hc).
      apply Z.ltb_ge in Hc.
      assert (Hrn : rxCnt l2 = n) by lia.
      eexists _, _, (DelayMs 10 :: E). split; [reflexivity|]. norm.
      rewrite (u8_small (rxCnt l2)) by lia.
      split; [rewrite Htr; reflexivity|].
      rewrite (max_run_cons_false sr_read), (max_run_cons_false i2c_busy)
        by reflexivity.
      split; [assumption|].
      split; [cbn [count rx_read is_In32]; fold rx_read; lia|].
      split; [exact Hbuf|].
      left. split; [assumption|]. split; [assumption|]. now exists E.
    + destruct Hr as (Hcv & Hmem & E & Htr & Hv & Hvn & Hmax & Hmax' & Hbuf).
      eexists _, _, (i2c_recovery_events ++ E). split; [reflexivity|].
      split; [rewrite Htr, <- app_assoc; reflexivity|].
      cbn [app i2c_recovery_events].
      rewrite !(max_run_cons_false sr_read), !(max_run_cons_false i2c_busy)
        by reflexivity.
      split; [assumption|].
      split; [cbn [count rx_read is_In32]; fold rx_read; lia|].
      split; [exact Hbuf|].
      right. split; [assumption|]. split; [assumption|]. now exists E.
Qed.

(** A slave that delivers [k] bytes without delay and then stalls: the
    status register shows data available exactly while fewer than [k] bytes
    were popped since the call began.  The read is short by design: it
    returns [k] after a poll that used up its countdown. *)
Lemma I2C_Read_short_read sa n sb s k :
  1 <= n <= 255 -> (Z.to_nat n <= length (mem s))%nat -> 0 <= k < n ->
  (forall E, (Z.land (u32 (dev (E ++ trace s) (I2C_BASEADDR SR))) 0x40 =? 0)
             = (count rx_read E <? k)) ->
  (exists s', I2C_Read dev sa n sb s = Ok (k, s')) /\
  i2c_poll_exhausted (run_events (I2C_Read dev sa n sb) s) = true.
Proof.
  intros Hn Hlen Hk Hdev.
  assert (Hret : exists s', I2C_Read dev sa n sb s = Ok (k, s')).
  { unfold I2C_Read, I2C_Read_prologue.
    unfold bind, Xil_Out32, TIME_DelayMs, ret. norm.
    set (l0 := mkLocals 0 0 0 0 16777215).
    set (s1 := mkState _ _ _).
    assert (Hinv : i2c_inv n s l0 s1).
    { unfold i2c_inv, l0, s1. norm.
      repeat (split; [first [lia | reflexivity]|]).
      exists (i2c_prologue_events sa n).
      split; [reflexivity|]. split; [discriminate|].
      split; [|split; reflexivity].
      unfold i2c_events_ok. cbv. repeat split; congruence. }
    destruct (while_rule (fun l => rxCnt l <? n) (I2C_Read_body dev)
                (fun l s' => i2c_inv n s l s' /\ rxCnt l <= k)
                (fun v _ => v = k)
                (fun l => Z.to_nat (n - rxCnt l))) with
      (fuel := Z.to_nat n) (l := l0) (s := s1)
      as (r & s2 & Hw & Hr).
    - intros l Hc. apply Z.ltb_lt in Hc. lia.
    - intros l s' (HI & Hle) Hc.
      destruct (I2C_Read_body_outcome n s l s' ltac:(lia) Hlen HI Hc)
        as (r & s2 & v & busy & Hrun & Hbusy & Hv & Hr).
      exists r, s2. split; [assumption|].
      destruct HI as (_ & _ & _ & _ & E & Htr & _ & _ & Hcnt & _).
      assert (Hb : count rx_read busy = 0).
      { clear - Hbusy. induction Hbusy as [|e busy He _ IH]; [reflexivity|].
        destruct e as [[[]|[]] w|b w|m]; simpl in *; try discriminate.
        assumption. }
      pose proof (Hdev (busy ++ E)) as Hd.
      rewrite <- app_assoc, <- Htr, <- Hv, count_app, Hb, Hcnt in Hd.
      cbn [Z.add] in Hd.
      destruct r as [l'|v'].
      + destruct Hr as (Hz & Hrx' & HI' & Hm).
        split; [split; [assumption|]|assumption].
        rewrite Hz in Hd. symmetry in Hd. apply Z.ltb_lt in Hd. lia.
      + destruct Hr as (Hz & Hv' & _).
        rewrite Hz in Hd. symmetry in Hd. apply Z.ltb_ge in Hd. lia.
    - split; [exact Hinv | unfold l0; cbn [rxCnt]; lia].
    - unfold l0. cbn [rxCnt]. lia.
    - rewrite Hw. destruct r as [l2|v].
      + destruct Hr as ((_ & Hle) & Hc). apply Z.ltb_ge in Hc. lia.
      + subst v. eexists. reflexivity. }
  split; [exact Hret|].
  destruct Hret as (s' & Hret).
  destruct (I2C_Read_run sa n sb s) as (r & s'' & E & Hrun & Htr & _ & _ & _ & Hcase);
    [lia | assumption |].
  rewrite (run_events_prefix _ _ _ _ _ Hrun Htr).
  unfold i2c_poll_exhausted. apply Z.leb_le.
  rewrite Hret in Hrun. injection Hrun as Hr _.
  destruct Hcase as [(Hrn & _ & _)|(_ & Hmax & _)]; [lia | assumption].
Qed.

(** C3: for a count of at least one, when a poll of I2C_Read sees the
    RX-FIFO-empty flag set at each of its reads until its countdown from
    0xFFFFFF is used up, after k bytes were received, then k is below
    count, the call returns k, and its last four register accesses are the
    recovery sequence: core disabled, RX FIFO depth set to maximum, soft
    reset, core enabled.  No wait of the call reads the status register
    more than 0xFFFFFF + 1 times in a row. *)
Theorem I2C_Read_stall sa n sb s :
  1 <= n <= 255 -> (Z.to_nat n <= length (mem s))%nat ->
  i2c_poll_exhausted (run_events (I2C_Read dev sa n sb) s) = true ->
  exists k s' first,
    I2C_Read dev sa n sb s = Ok (k, s') /\
    k = count rx_read (run_events (I2C_Read dev sa n sb) s) /\
    0 <= k < n /\
    rev (run_events (I2C_Read dev sa n sb) s) =
      first ++ [Out32 (I2C_BASEADDR CR) 0x00;
                Out32 (I2C_BASEADDR RX_FIFO_PIRQ) 0x0F;
                Out32 (I2C_BASEADDR CR) 0x02;
                Out32 (I2C_BASEADDR CR) 0x01] /\
    max_run sr_read (run_events (I2C_Read dev sa n sb) s) <= 0xFFFFFF + 1.
Proof.
  intros Hn Hlen Hex.
  destruct (I2C_Read_run sa n sb s) as (r & s' & E & Hrun & Htr & Hsr & Hr & _ & Hcase);
    [lia | assumption |].
  rewrite (run_events_prefix _ _ _ _ _ Hrun Htr) in *.
  unfold i2c_poll_exhausted in Hex. apply Z.leb_le in Hex.
  destruct Hcase as [(_ & Hmax & _)|(Hrn & _ & E' & HE)]; [lia|].
  exists r, s', (rev E').
  split; [assumption|]. split; [assumption|]. split; [assumption|].
  split; [|exact Hsr].
  rewrite HE, rev_app_distr. reflexivity.
Qed.

End I2C.

Lemma i2c_pushes_S n m k :
  i2c_pushes n m (S k) =
  i2c_pushes n m k ++
    [Out32 (I2C_BASEADDR TX_FIFO)
       (if Z.of_nat k =? n - 1 then Z.lor 0x200 (nth k m 0) else nth k m 0)].
Proof. unfold i2c_pushes. now rewrite seq_S, map_app. Qed.

Lemma count_is_read_pushes n m k : count is_read (i2c_pushes n m k) = 0.
Proof.
  induction k as [|k IH]; [reflexivity|].
  rewrite i2c_pushes_S, count_app, IH. reflexivity.
Qed.

Lemma count_rev p l : count p (rev l) = count p l.
Proof.
  induction l as [|e l IH]; [reflexivity|].
  simpl. rewrite count_app, IH. simpl. lia.
Qed.

Lemma I2C_Write_body_spec n pro s0 l s :
  0 <= n <= 255 -> (Z.to_nat n <= length (mem s0))%nat ->
  i2c_write_inv n pro s0 l s -> (txCnt l <? n) = true ->
  exists r s', I2C_Write_body n l s = Ok (r, s') /\
    match r with
    | inl l' => i2c_write_inv n pro s0 l' s' /\
                (Z.to_nat (n - txCnt l') < Z.to_nat (n - txCnt l))%nat
    | inr v => False
    end.
Proof.
  intros Hn Hlen (Htx & Hcv & Hmem & Htr) Hc. apply Z.ltb_lt in Hc.
  destruct (nth_error_in_range (mem s) (Z.to_nat (txCnt l))) as (d & Hd);
    [rewrite Hmem; lia|].
  unfold I2C_Write_body, bind, load, Xil_Out32, ret. rewrite Hd. norm.
  rewrite !(u32_small (txCnt l + 1)), (u32_small (n - 1)) by lia.
  eexists _, _. split; [reflexivity|].
  split; [|norm; lia].
  unfold i2c_write_inv. norm.
  split; [lia|]. split; [assumption|]. split; [assumption|].
  replace (Z.to_nat (txCnt l + 1)) with (S (Z.to_nat (txCnt l))) by lia.
  rewrite i2c_pushes_S, rev_app_distr, Htr. cbn [rev app].
  rewrite Z2Nat.id by lia.
  rewrite <- Hmem, (nth_error_nth _ _ 0 Hd). reflexivity.
Qed.

(** C4: for every slave address, stop bit, count and buffer of at least
    count elements, I2C_Write returns count; it reads no register, so it
    polls no status and has no timeout; between the two settle delays it
    pushes the command 0x100 | (slaveAddress << 1) and then buffer[i] for
    each i below count, the one of index count - 1 with the stop marker
    0x200. *)
Theorem I2C_Write_spec sa n sb s :
  0 <= n <= 255 -> (Z.to_nat n <= length (mem s))%nat ->
  exists s',
    I2C_Write sa n sb s = Ok (n, s') /\
    mem s' = mem s /\
    count is_read (run_events (I2C_Write sa n sb) s) = 0 /\
    rev (run_events (I2C_Write sa n sb) s) =
      [Out32 (I2C_BASEADDR CR) 0x002;
       Out32 (I2C_BASEADDR CR) 0x001;
       DelayMs 10;
       Out32 (I2C_BASEADDR TX_FIFO) (Z.lor 0x100 (Z.shiftl sa 1))]
      ++ i2c_pushes n (mem s) (Z.to_nat n)
      ++ [DelayMs 10].
Proof.
  intros Hn Hlen.
  set (pro := [Out32 (I2C_BASEADDR TX_FIFO) (Z.lor 0x100 (Z.shiftl sa 1));
               DelayMs 10;
               Out32 (I2C_BASEADDR CR) 0x001;
               Out32 (I2C_BASEADDR CR) 0x002]).
  assert (Hrun : exists s', I2C_Write sa n sb s = Ok (n, s') /\ mem s' = mem s /\
            trace s' = (DelayMs 10 :: rev (i2c_pushes n (mem s) (Z.to_nat n)) ++ pro)
                       ++ trace s).
  { unfold I2C_Write.
    unfold bind, Xil_Out32, TIME_DelayMs, ret. norm.
    set (l0 := mkLocals 0 0 0 0 0).
    set (s1 := mkState _ _ _).
    destruct (while_rule (fun l => txCnt l <? n) (I2C_Write_body n)
                (i2c_write_inv n pro s) (fun (_ : Z) _ => False)
                (fun l => Z.to_nat (n - txCnt l))) with
      (fuel := Z.to_nat n) (l := l0) (s := s1)
      as (r & s2 & Hw & Hr).
    - intros l Hc. apply Z.ltb_lt in Hc. lia.
    - intros l s' HI Hc. now apply I2C_Write_body_spec.
    - unfold i2c_write_inv, l0, s1. norm. repeat split; try lia.
    - unfold l0. cbn [txCnt]. lia.
    - rewrite Hw. destruct r as [l2|v]; [|contradiction].
      destruct Hr as ((Htx & Hcv & Hmem & Htr) & Hc). apply Z.ltb_ge in Hc.
      assert (Ht : txCnt l2 = n) by lia.
      eexists. split; [rewrite Ht, u8_small by lia; reflexivity|]. norm.
      split; [assumption|].
      rewrite Htr, Ht. cbn [app]. now rewrite <- app_assoc. }
  destruct Hrun as (s' & Hrun & Hmem & Htr).
  exists s'. split; [assumption|]. split; [assumption|].
  rewrite (run_events_prefix _ _ _ _ _ Hrun Htr).
  split.
  - cbn [count is_read]. rewrite count_app, count_rev, count_is_read_pushes.
    reflexivity.
  - cbn [rev]. rewrite rev_app_distr, rev_involutive, <- app_assoc.
    reflexivity.
Qed.

Section Timeouts.
Context {bits : SPICR_bits}.
Variable dev : list Event -> Addr -> Z.

(** C7: the stopBit argument of I2C_Read and of I2C_Write has no effect:
    calls that differ only in stopBit (0 and 1 among them) give the same
    result, that is the same return value, the same final buffer and the
    same trace of register accesses, from every state and for every
    peripheral. *)
Theorem I2C_stopBit_unused sa n sb sb' s :
  I2C_Read dev sa n sb s = I2C_Read dev sa n sb' s /\
  I2C_Write sa n sb s = I2C_Write sa n sb' s.
Proof. split; reflexivity. Qed.

(** Leaving a loop body through [inl] fixes the counter. *)
Lemma SPI_Write_body_timeout n l s l' s' :
  SPI_Write_body dev n l s = Ok (inl l', s') -> timeout l' = 0xFFFF.
Proof.
  unfold SPI_Write_body. unfold bind at 1.
  destruct (SPI_Write_poll dev _ l s) as [[l1 s1]| |]; try discriminate.
  destruct (timeout l1 =? u32 (-1)); [intros H; discriminate H|].
  unfold bind, Xil_In32, Xil_Out32, ret, load, store. norm.
  destruct (rxCnt l1 <? n); norm.
  - destruct (_ <? _)%nat; try discriminate. norm.
    destruct (_ <? n); norm.
    + destruct (nth_error _ _); try discriminate.
      intros H. injection H as <- _. reflexivity.
    + intros H. injection H as <- _. reflexivity.
  - destruct (_ <? n); norm.
    + destruct (nth_error _ _); try discriminate.
      intros H. injection H as <- _. reflexivity.
    + intros H. injection H as <- _. reflexivity.
Qed.

Lemma I2C_Read_body_timeout l s l' s' :
  I2C_Read_body dev l s = Ok (inl l', s') -> timeout l' = 0xFFFFFF.
Proof.
  unfold I2C_Read_body. unfold bind at 1.
  destruct (I2C_Read_poll dev _ l s) as [[l1 s1]| |]; try discriminate.
  destruct (timeout l1 =? u32 (-1)); [intros H; discriminate H|].
  unfold bind, Xil_In32, Xil_Out32, ret, load, store. norm.
  destruct (_ <? _)%nat; try discriminate. norm.
  intros H. injection H as <- _. reflexivity.
Qed.

Lemma SPI_Write_prologue_timeout id s l0 s0 :
  SPI_Write_prologue id s = Ok (l0, s0) -> timeout l0 = 0xFFFF.
Proof.
  unfold SPI_Write_prologue, bind, get_configValue, Xil_Out32, load, ret. norm.
  destruct (nth_error _ _); try discriminate.
  intros H. injection H as <- _. reflexivity.
Qed.

(** C6: whenever the transfer loop of SPI_Write, of SPI_Read or of I2C_Read
    is about to start a wait, that is at every evaluation of its loop
    condition, the first one and each one reached through a completed pass,
    the timeout counter holds the ceiling: 0xFFFF for SPI, 0xFFFFFF for
    I2C. *)
Theorem timeout_reset_before_each_wait :
  (forall id n s l0 s0 l s',
     SPI_Write_prologue id s = Ok (l0, s0) ->
     loop_head (fun l => txCnt l <? n) (SPI_Write_body dev n) l0 s0 l s' ->
     timeout l = 0xFFFF) /\
  (forall id n s l0 s0 l s',
     SPI_Read_prologue id s = Ok (l0, s0) ->
     loop_head (fun l => txCnt l <? n) (SPI_Read_body dev n) l0 s0 l s' ->
     timeout l = 0xFFFF) /\
  (forall sa n s l0 s0 l s',
     I2C_Read_prologue sa n s = Ok (l0, s0) ->
     loop_head (fun l => rxCnt l <? n) (I2C_Read_body dev) l0 s0 l s' ->
     timeout l = 0xFFFFFF).
Proof.
  split; [|split].
  - intros id n s l0 s0 l s' Hpro Hhead.
    induction Hhead as [|l1 s1 l2 s2 _ _ _ Hbody].
    + exact (SPI_Write_prologue_timeout id _ _ _ Hpro).
    + exact (SPI_Write_body_timeout _ _ _ _ _ Hbody).
  - intros id n s l0 s0 l s' Hpro Hhead.
    induction Hhead as [|l1 s1 l2 s2 _ _ _ Hbody].
    + exact (SPI_Write_prologue_timeout id _ _ _ Hpro).
    + exact (SPI_Write_body_timeout _ _ _ _ _ Hbody).
  - intros sa n s l0 s0 l s' Hpro Hhead.
    induction Hhead as [|l1 s1 l2 s2 _ _ _ Hbody].
    + revert Hpro. unfold I2C_Read_prologue, bind, Xil_Out32, TIME_DelayMs, ret.
      intros H. injection H as <- _. reflexivity.
    + exact (I2C_Read_body_timeout _ _ _ _ Hbody).
Qed.

End Timeouts.

(** ** SPI_Init *)

Section Init.
Context {bits : SPICR_bits}.

Lemma SPI_Init_run lsbFirst clockFreq clockPol clockEdg s :
  exists m s',
    SPI_Init lsbFirst clockFreq clockPol clockEdg s = Ok (to_char 0, s') /\
    configValue s' = Z.lor (configValue s) m.
Proof.
  unfold SPI_Init, bind, get_configValue, put_configValue, Xil_Out32, ret.
  norm. eexists _, _. split; reflexivity.
Qed.

(** C10: SPI_Init only ORs bits into configValue: after any sequence of
    calls the word is the old one ORed with some mask, so every bit that was
    set before is still set, whatever the arguments of the later calls
    (lsbFirst = 0, clockPol = 0 or clockEdg = 1 included). *)
Theorem SPI_Init_never_clears calls s :
  (exists m, configValue (SPI_Init_calls calls s) = Z.lor (configValue s) m) /\
  (forall i, Z.testbit (configValue s) i = true ->
             Z.testbit (configValue (SPI_Init_calls calls s)) i = true).
Proof.
  assert (H : exists m,
             configValue (SPI_Init_calls calls s) = Z.lor (configValue s) m).
  { revert s. induction calls as [|[[[lsb f] pol] edg] later IH]; intros s.
    - exists 0. simpl. now rewrite Z.lor_0_r.
    - destruct (SPI_Init_run lsb f pol edg s) as (m & s' & Hrun & Hcv).
      cbn [SPI_Init_calls]. rewrite Hrun.
      destruct (IH s') as (m' & Hm').
      exists (Z.lor m m'). now rewrite Hm', Hcv, Z.lor_assoc. }
  split; [exact H|].
  destruct H as (m & ->). intros i Hi.
  rewrite Z.lor_spec, Hi. reflexivity.
Qed.

End Init.

(** On the AXI layout: a first call asks for LSB first, clock polarity 1 and
    clock edge 0 (bits 9, 3 and 4); a second call asks for the opposite, and
    the three bits are still set afterwards. *)
Example SPI_Init_second_call_keeps_bits :
  let s1 := SPI_Init_calls [(1, 1000000, 1, 0)] (mkState 0 [] []) in
  let s2 := SPI_Init_calls [(0, 1000000, 0, 1)] s1 in
  configValue s1 = 0x3DE /\ configValue s2 = 0x3DE /\
  configValue (SPI_Init_calls [(0, 1000000, 0, 1)] (mkState 0 [] [])) = 0x1C6.
Proof. repeat split. Qed.

(** The char returned for a full transfer of 255 bytes is the char returned
    on a timeout. *)
Remark to_char_255_is_minus_1 : to_char 255 = to_char (-1).
Proof. reflexivity. Qed.

(** ** Sample runs *)

(** A two-byte SPI transfer with a peripheral that is ready at once. *)
Example SPI_Write_two_bytes :
  SPI_Write dev_ready 0 2 demo_state =
  Ok (2, mkState 0x1C6 [0xA5; 0xAA; 0x33; 0x44]
           (rev [Out32 (SPI_BASEADDR SPICR) 0x1C6;
                 Out32 (SPI_BASEADDR SPISSR) 0xFFFFFFFE;
                 Out32 (SPI_BASEADDR SPIDTR) 0x11;
                 Out32 (SPI_BASEADDR SPICR) 0xC6;
                 In32 (SPI_BASEADDR SPISR) 0;
                 In32 (SPI_BASEADDR SPIDRR) 0xA5;
                 Out32 (SPI_BASEADDR SPICR) 0x1C6;
                 Out32 (SPI_BASEADDR SPIDTR) 0x22;
                 Out32 (SPI_BASEADDR SPICR) 0xC6;
                 In32 (SPI_BASEADDR SPISR) 0;
                 In32 (SPI_BASEADDR SPIDRR) 0xAA;
                 Out32 (SPI_BASEADDR SPICR) 0x1C6;
                 Out32 (SPI_BASEADDR SPISSR) 0xFFFFFFFF])).
Proof. reflexivity. Qed.

(** A two-byte I2C read and a two-byte I2C write. *)
Example I2C_Read_two_bytes :
  I2C_Read dev_ready 0x50 2 1 demo_state =
  Ok (2, mkState 0x1C6 [0xA6; 0xA8; 0x33; 0x44]
           (rev [Out32 (I2C_BASEADDR CR) 0x002;
                 Out32 (I2C_BASEADDR CR) 0x001;
                 DelayMs 10;
                 Out32 (I2C_BASEADDR TX_FIFO) 0x1A1;
                 Out32 (I2C_BASEADDR TX_FIFO) 0x202;
                 In32 (I2C_BASEADDR SR) 0;
                 In32 (I2C_BASEADDR RX_FIFO) 0xA6;
                 In32 (I2C_BASEADDR SR) 0;
                 In32 (I2C_BASEADDR RX_FIFO) 0xA8;
                 DelayMs 10])).
Proof. reflexivity. Qed.

Example I2C_Write_two_bytes :
  I2C_Write 0x50 2 0 demo_state =
  Ok (2, mkState 0x1C6 [0x11; 0x22; 0x33; 0x44]
           (rev [Out32 (I2C_BASEADDR CR) 0x002;
                 Out32 (I2C_BASEADDR CR) 0x001;
                 DelayMs 10;
                 Out32 (I2C_BASEADDR TX_FIFO) 0x1A0;
                 Out32 (I2C_BASEADDR TX_FIFO) 0x11;
                 Out32 (I2C_BASEADDR TX_FIFO) 0x222;
                 DelayMs 10])).
Proof. reflexivity. Qed.

(** ** The theorems at concrete inputs *)

Lemma SPI_Write_success_char_witness :
  exists r s',
    SPI_Write dev_ready 0 255 demo_state_255 = Ok (r, s') /\
    char_value false r = 255 /\
    char_value true r = -1 /\
    (255 = 255 -> r = to_char (-1)) /\
    firstn 255 (mem s') =
      map u8 (reads_of (SPI_BASEADDR SPIDRR)
                (run_events (SPI_Write dev_ready 0 255) demo_state_255)) /\
    (exists c, last_write (SPI_BASEADDR SPICR) (trace s') = Some c /\
               Z.testbit c 8 = true) /\
    last_write (SPI_BASEADDR SPISSR) (trace s') = Some 0xFFFFFFFF.
Proof.
  refine (SPI_Write_success_char dev_ready 0 255 demo_state_255 _ _ _).
  - lia.
  - vm_compute. apply le_n.
  - vm_compute. reflexivity.
Defined.

Lemma SPI_Write_timeout_witness :
  exists s' first c,
    SPI_Write dev_stalled 0 3 demo_state = Ok (255, s') /\
    schar 255 = -1 /\
    c = 0x1C6 /\
    Z.testbit c 8 = true /\
    rev (run_events (SPI_Write dev_stalled 0 3) demo_state) =
      first ++ [Out32 (SPI_BASEADDR SPICR) c;
                Out32 (SPI_BASEADDR SRR) 0x0000000A;
                Out32 (SPI_BASEADDR SPISSR) 0xFFFFFFFF;
                Out32 (SPI_BASEADDR SPICR) c].
Proof.
  refine (SPI_Write_timeout dev_stalled 0 3 demo_state _ _ _).
  - lia.
  - simpl. lia.
  - vm_compute. reflexivity.
Defined.

Lemma I2C_Read_stall_witness :
  exists k s' first,
    I2C_Read dev_two_bytes 0x50 3 1 demo_state = Ok (k, s') /\
    k = count rx_read
          (run_events (I2C_Read dev_two_bytes 0x50 3 1) demo_state) /\
    0 <= k < 3 /\
    rev (run_events (I2C_Read dev_two_bytes 0x50 3 1) demo_state) =
      first ++ [Out32 (I2C_BASEADDR CR) 0x00;
                Out32 (I2C_BASEADDR RX_FIFO_PIRQ) 0x0F;
                Out32 (I2C_BASEADDR CR) 0x02;
                Out32 (I2C_BASEADDR CR) 0x01] /\
    max_run sr_read
      (run_events (I2C_Read dev_two_bytes 0x50 3 1) demo_state)
      <= 0xFFFFFF + 1.
Proof.
  refine (I2C_Read_stall dev_two_bytes 0x50 3 1 demo_state _ _ _).
  - lia.
  - simpl. lia.
  - apply (I2C_Read_short_read dev_two_bytes 0x50 3 1 demo_state 2).
    + lia.
    + simpl. lia.
    + lia.
    + intros E. cbn [trace demo_state]. rewrite app_nil_r.
      unfold dev_two_bytes.
      destruct (count rx_read E <? 2); reflexivity.
Defined.

Lemma I2C_Write_spec_witness :
  exists s',
    I2C_Write 0x50 3 1 demo_state = Ok (3, s') /\
    mem s' = mem demo_state /\
    count is_read (run_events (I2C_Write 0x50 3 1) demo_state) = 0 /\
    rev (run_events (I2C_Write 0x50 3 1) demo_state) =
      [Out32 (I2C_BASEADDR CR) 0x002;
       Out32 (I2C_BASEADDR CR) 0x001;
       DelayMs 10;
       Out32 (I2C_BASEADDR TX_FIFO) 0x1A0;
       Out32 (I2C_BASEADDR TX_FIFO) 0x11;
       Out32 (I2C_BASEADDR TX_FIFO) 0x22;
       Out32 (I2C_BASEADDR TX_FIFO) 0x233;
       DelayMs 10].
Proof.
  refine (I2C_Write_spec 0x50 3 1 demo_state _ _).
  - lia.
  - simpl. lia.
Defined.

Lemma SPI_Write_selects_slave_0_witness :
  exists r s' rest,
    SPI_Write dev_ready 2 1 demo_state = Ok (r, s') /\
    rev (run_events (SPI_Write dev_ready 2 1) demo_state) =
      Out32 (SPI_BASEADDR SPICR) 0x1C6
      :: Out32 (SPI_BASEADDR SPISSR) 0xFFFFFFFE :: rest /\
    forall i, 1 <= i < 32 -> Z.testbit 0xFFFFFFFE i = true.
Proof.
  refine (SPI_Write_selects_slave_0 dev_ready 2 1 demo_state _ _ _).
  - lia.
  - simpl. lia.
  - discriminate.
Defined.

Lemma timeout_reset_before_each_wait_witness :
  (exists l0 s0 l1 s1,
     SPI_Write_prologue 0 demo_state = Ok (l0, s0) /\
     SPI_Write_body dev_ready 3 l0 s0 = Ok (inl l1, s1) /\
     timeout l1 = 0xFFFF) /\
  (exists l0 s0 l1 s1,
     SPI_Read_prologue 0 demo_state = Ok (l0, s0) /\
     SPI_Read_body dev_ready 3 l0 s0 = Ok (inl l1, s1) /\
     timeout l1 = 0xFFFF) /\
  (exists l0 s0 l1 s1,
     I2C_Read_prologue 0x50 3 demo_state = Ok (l0, s0) /\
     I2C_Read_body dev_ready l0 s0 = Ok (inl l1, s1) /\
     timeout l1 = 0xFFFFFF).
Proof.
  destruct (timeout_reset_before_each_wait dev_ready) as (Hw & Hr & Hi).
  split; [|split].
  - eexists _, _, _, _.
    split; [lazy; reflexivity|]. split; [lazy; reflexivity|].
    refine (Hw 0 3 demo_state _ _ _ _ _ _); [lazy; reflexivity|].
    eapply head_next; [apply head_first | reflexivity | lazy; reflexivity].
  - eexists _, _, _, _.
    split; [lazy; reflexivity|]. split; [lazy; reflexivity|].
    refine (Hr 0 3 demo_state _ _ _ _ _ _); [lazy; reflexivity|].
    eapply head_next; [apply head_first | reflexivity | lazy; reflexivity].
  - eexists _, _, _, _.
    split; [lazy; reflexivity|]. split; [lazy; reflexivity|].
    refine (Hi 0x50 3 demo_state _ _ _ _ _ _); [lazy; reflexivity|].
    eapply head_next; [apply head_first | reflexivity | lazy; reflexivity].
Defined.

Lemma SPI_Write_count_zero_witness :
  exists s' d0,
    SPI_Write dev_stalled 5 0 demo_state = Ok (0, s') /\
    nth_error (mem demo_state) 0 = Some d0 /\
    mem s' = mem demo_state /\
    (forall fuel l s1, 0 <= txCnt l ->
       while fuel (fun l => txCnt l <? 0) (SPI_Write_body dev_stalled 0) l s1
       = Ok (inl l, s1)) /\
    rev (run_events (SPI_Write dev_stalled 5 0) demo_state) =
      [Out32 (SPI_BASEADDR SPICR) 0x1C6;
       Out32 (SPI_BASEADDR SPISSR) 0xFFFFFFFE;
       Out32 (SPI_BASEADDR SPIDTR) d0;
       Out32 (SPI_BASEADDR SPICR) 0xC6;
       Out32 (SPI_BASEADDR SPICR) 0x1C6;
       Out32 (SPI_BASEADDR SPISSR) 0xFFFFFFFF].
Proof.
  refine (SPI_Write_count_zero dev_stalled 5 demo_state _).
  discriminate.
Defined.


(** * Further properties *)

(** ** More on buffers and traces *)

Lemma skipn_update_above m i j v :
  (i < j)%nat -> skipn j (update m i v) = skipn j m.
Proof.
  revert i j. induction m as [|b m IH]; intros [|i] [|j] Hij; simpl;
    try lia; try reflexivity.
  apply IH. lia.
Qed.

Lemma skipn_S_eq (a b : list Z) i :
  skipn i a = skipn i b -> skipn (S i) a = skipn (S i) b.
Proof.
  intros H. change (S i) with (1 + i)%nat.
  now rewrite <- !skipn_skipn, H.
Qed.

Lemma nth_error_skipn_eq (a b : list Z) i :
  skipn i a = skipn i b -> nth_error a i = nth_error b i.
Proof.
  intros H. rewrite <- (Nat.add_0_r i), <- !nth_error_skipn. now rewrite H.
Qed.

Lemma nth_error_update_other m i j v :
  i <> j -> nth_error (update m i v) j = nth_error m j.
Proof.
  revert i j. induction m as [|b m IH]; intros [|i] [|j] Hij; simpl;
    try congruence; try reflexivity.
  apply IH. congruence.
Qed.

Lemma firstn_S_snoc (m : list Z) k d :
  nth_error m k = Some d -> firstn (S k) m = firstn k m ++ [d].
Proof.
  revert k. induction m as [|b m IH]; intros [|k] H; simpl in *;
    try discriminate.
  - now injection H as ->.
  - f_equal. now apply IH.
Qed.

Lemma writes_of_app a l tr :
  writes_of a (l ++ tr) = writes_of a tr ++ writes_of a l.
Proof.
  induction l as [|e l IH]; simpl; [now rewrite app_nil_r|].
  destruct e as [b v|b v|n]; try assumption.
  destruct (Addr_eqb a b); [|assumption].
  now rewrite IH, app_assoc.
Qed.

Lemma spi_busy_counts l :
  Forall (fun e => spi_busy e = true) l ->
  count spisr_read l = Z.of_nat (length l) /\
  count spidrr_read l = 0 /\
  writes_of (SPI_BASEADDR SPIDTR) l = [].
Proof.
  induction 1 as [|e l He _ (IH1 & IH2 & IH3)]; [repeat split|].
  destruct e as [[[]|[]] v|b v|n]; simpl in He; try discriminate.
  cbn [count spisr_read spidrr_read is_In32 Addr_eqb writes_of length].
  fold spisr_read spidrr_read.
  rewrite Nat2Z.inj_succ. repeat split; try assumption. lia.
Qed.

Section SPI_more.
Context {bits : SPICR_bits}.
Variable dev : list Event -> Addr -> Z.

Lemma SPI_Write_body_full n s0 l s :
  1 <= n <= 255 -> (Z.to_nat n <= length (mem s0))%nat ->
  spi_full_inv n s0 l s -> (txCnt l <? n) = true ->
  exists r s', SPI_Write_body dev n l s = Ok (r, s') /\
    match r with
    | inl l' => spi_full_inv n s0 l' s' /\
                (Z.to_nat (n - txCnt l') < Z.to_nat (n - txCnt l))%nat
    | inr v => spi_full_exit n s0 v s'
    end.
Proof.
  intros Hn Hlen (Htx & Hrx & Hto & Hcv & Hmem & Hskip & evs & Htr & Hrun & Hmax & Hbuf & Hpop & Hpush & Hsr) Hc.
  apply Z.ltb_lt in Hc.
  unfold SPI_Write_body. unfold bind at 1.
  destruct (SPI_Write_poll_spec dev (S (Z.to_nat (timeout l))) l s)
    as (l1 & busy & Hpoll & Hall & Hc1 & Hr1 & Ht1 & Hcase); [lia | lia |].
  rewrite Hpoll. clear Hpoll.
  destruct l as [cfg st rx tx to], l1 as [cfg1 st1 rx1 tx1 to1].
  cbn [cfgValue SPIStatus rxCnt txCnt timeout] in *. subst cfg1 rx1 tx1 rx to.
  destruct (spi_busy_counts _ Hall) as (Hbsr & Hbpop & Hbpush).
  assert (Hbusy_len : Z.of_nat (length busy) <= 0xFFFF) by (destruct Hcase; lia).
  assert (Hrun1 : run spi_busy (busy ++ evs) = Z.of_nat (length busy)).
  { rewrite run_app_all by assumption. lia. }
  assert (Hmax1 : max_run spi_busy (busy ++ evs)
                  = Z.max (Z.of_nat (length busy)) (max_run spi_busy evs)).
  { rewrite max_run_app_all by assumption. now rewrite Hrun, Z.add_0_r. }
  assert (Hsr1 : count spisr_read (In32 (SPI_BASEADDR SPISR) st1 :: busy ++ evs)
                 <= (tx + 1) * 0x10000).
  { cbn [count spisr_read is_In32 Addr_eqb]. rewrite count_app.
    fold spisr_read. lia. }
  assert (Hpop1 : count spidrr_read (In32 (SPI_BASEADDR SPISR) st1 :: busy ++ evs)
                  = tx).
  { cbn [count spidrr_read is_In32 Addr_eqb]. rewrite count_app.
    fold spidrr_read. lia. }
  assert (Hpush1 : writes_of (SPI_BASEADDR SPIDTR)
                     (In32 (SPI_BASEADDR SPISR) st1 :: busy ++ evs)
                   = firstn (Z.to_nat (tx + 1)) (mem s0)).
  { cbn [writes_of]. rewrite writes_of_app, Hbpush, app_nil_r, Hpush.
    f_equal. lia. }
  assert (Hbuf1 : reads_of (SPI_BASEADDR SPIDRR)
                    (In32 (SPI_BASEADDR SPISR) st1 :: busy ++ evs)
                  = reads_of (SPI_BASEADDR SPIDRR) evs).
  { cbn [reads_of Addr_eqb]. rewrite reads_of_app.
    rewrite (spi_busy_not_pop busy) by assumption. apply app_nil_r. }
  destruct Hcase as [(Hst & Hto1 & Hge)|(Hst & Hlen1 & Hto1)].
  - (* the flag cleared in time *)
    assert (Hne : (to1 =? u32 (-1)) = false).
    { apply Z.eqb_neq. change (u32 (-1)) with 4294967295. lia. }
    rewrite Hne. clear Hne.
    assert (Hlt : (tx <? n) = true) by now apply Z.ltb_lt.
    assert (Hidx : (Z.to_nat tx < length (mem s))%nat) by lia.
    pose proof Hidx as Hidxb. apply Nat.ltb_lt in Hidxb.
    unfold bind, Xil_In32, Xil_Out32, ret, load, store. norm.
    rewrite Hlt. norm. rewrite Hidxb. norm.
    set (v := u32 (dev _ (SPI_BASEADDR SPIDRR))).
    rewrite !(u32_small (tx + 1)) by lia.
    set (E1 := In32 (SPI_BASEADDR SPIDRR) v
               :: In32 (SPI_BASEADDR SPISR) st1 :: busy ++ evs).
    assert (HE1 : In32 (SPI_BASEADDR SPIDRR) v
                  :: In32 (SPI_BASEADDR SPISR) st1 :: busy ++ trace s
                  = E1 ++ trace s0).
    { unfold E1. rewrite Htr. cbn [app]. now rewrite <- app_assoc. }
    rewrite HE1.
    assert (Hskip' : skipn (Z.to_nat (tx + 1)) (update (mem s) (Z.to_nat tx) (u8 v))
                     = skipn (Z.to_nat (tx + 1)) (mem s0)).
    { rewrite skipn_update_above by lia.
      replace (Z.to_nat (tx + 1)) with (S (Z.to_nat tx)) by lia.
      now apply skipn_S_eq. }
    assert (Hbuf' : firstn (Z.to_nat (tx + 1)) (update (mem s) (Z.to_nat tx) (u8 v))
                    = map u8 (reads_of (SPI_BASEADDR SPIDRR) E1)).
    { replace (Z.to_nat (tx + 1)) with (S (Z.to_nat tx)) by lia.
      rewrite firstn_update_snoc by assumption.
      unfold E1.
      change (reads_of (SPI_BASEADDR SPIDRR) (In32 (SPI_BASEADDR SPIDRR) v :: ?t))
        with (reads_of (SPI_BASEADDR SPIDRR) t ++ [v]).
      rewrite Hbuf1, map_app, Hbuf. reflexivity. }
    assert (HrunE : run spi_busy E1 = 0) by (unfold E1; now rewrite run_cons_false).
    assert (HmaxE : max_run spi_busy E1 < 0x10000).
    { unfold E1. rewrite !max_run_cons_false; try reflexivity;
        [|cbn [spi_busy]; exact Hst].
      rewrite Hmax1. lia. }
    assert (HpopE : count spidrr_read E1 = tx + 1).
    { unfold E1.
      change (count spidrr_read (In32 (SPI_BASEADDR SPIDRR) v :: ?t))
        with (1 + count spidrr_read t).
      rewrite Hpop1. lia. }
    assert (HsrE : count spisr_read E1 <= (tx + 1) * 0x10000).
    { unfold E1.
      change (count spisr_read (In32 (SPI_BASEADDR SPIDRR) v :: ?t))
        with (0 + count spisr_read t).
      lia. }
    assert (HpushE : writes_of (SPI_BASEADDR SPIDTR) E1
                     = firstn (Z.to_nat (tx + 1)) (mem s0)).
    { unfold E1.
      change (writes_of (SPI_BASEADDR SPIDTR) (In32 (SPI_BASEADDR SPIDRR) v :: ?t))
        with (writes_of (SPI_BASEADDR SPIDTR) t).
      exact Hpush1. }
    destruct (Z.ltb_spec (tx + 1) n) as [Hmore|Hlast].
    + (* another byte follows *)
      assert (Hld : exists d, nth_error (mem s0) (Z.to_nat (tx + 1)) = Some d).
      { apply nth_error_in_range. lia. }
      destruct Hld as (d & Hd).
      assert (Hd' : nth_error (update (mem s) (Z.to_nat tx) (u8 v))
                      (Z.to_nat (tx + 1)) = Some d).
      { rewrite (nth_error_skipn_eq _ _ _ Hskip'). exact Hd. }
      norm. rewrite Hd'.
      eexists _, _. split; [reflexivity|].
      split; [|cbn [txCnt]; lia].
      unfold spi_full_inv. norm.
      split; [lia|]. split; [reflexivity|]. split; [reflexivity|].
      split; [assumption|]. split; [rewrite update_length; assumption|].
      split; [exact Hskip'|].
      eexists (_ :: _ :: _ :: E1).
      split; [reflexivity|].
      split; [now rewrite run_cons_false|].
      split; [now rewrite !max_run_cons_false by reflexivity|].
      split; [exact Hbuf'|].
      split; [exact HpopE|].
      split; [|exact HsrE].
      cbn [writes_of Addr_eqb]. rewrite HpushE.
      replace (Z.to_nat (Z.min (tx + 1 + 1) n)) with (S (Z.to_nat (tx + 1))) by lia.
      symmetry. now apply firstn_S_snoc.
    + (* that was the last byte *)
      eexists _, _. split; [reflexivity|].
      split; [|cbn [txCnt]; lia].
      unfold spi_full_inv. norm.
      split; [lia|]. split; [reflexivity|]. split; [reflexivity|].
      split; [assumption|]. split; [rewrite update_length; assumption|].
      split; [exact Hskip'|].
      exists E1.
      split; [reflexivity|].
      split; [assumption|]. split; [assumption|].
      split; [exact Hbuf'|].
      split; [exact HpopE|].
      split; [|exact HsrE].
      rewrite HpushE. f_equal. lia.
  - (* the countdown ran out *)
    rewrite Hto1, Z.eqb_refl.
    unfold bind, Xil_In32, Xil_Out32, ret, load, store. norm.
    eexists _, _. split; [reflexivity|].
    unfold spi_full_exit. norm.
    split; [reflexivity|]. split; [assumption|]. split; [assumption|].
    eexists (_ :: _ :: _ :: _ :: In32 (SPI_BASEADDR SPISR) st1 :: busy ++ evs), tx.
    split; [rewrite Htr; cbn [app]; rewrite <- !app_assoc; reflexivity|].
    split.
    { rewrite !max_run_cons_false by reflexivity.
      rewrite max_run_cons, run_cons. cbn [spi_busy]. rewrite Hst, Hrun1. lia. }
    split; [lia|].
    split; [exact Hpop1|].
    split.
    { cbn [reads_of Addr_eqb]. rewrite reads_of_app.
      rewrite (spi_busy_not_pop busy) by assumption.
      rewrite app_nil_r. exact Hbuf. }
    split; [exact Hskip|].
    split; [exact Hpush1 | exact Hsr1].
Qed.

Lemma skipn_eq_le (a b : list Z) i j :
  skipn i a = skipn i b -> (i <= j)%nat -> skipn j a = skipn j b.
Proof.
  intros H Hij. replace j with ((j - i) + i)%nat by lia.
  now rewrite <- !skipn_skipn, H.
Qed.

(** The whole call, with the buffer, the pushes and the status reads
    accounted for, in both outcomes. *)
Lemma SPI_Write_full id n s :
  1 <= n <= 255 -> (Z.to_nat n <= length (mem s))%nat ->
  exists r s' evs,
    SPI_Write dev id n s = Ok (r, s') /\
    run_events (SPI_Write dev id n) s = evs /\
    trace s' = evs ++ trace s /\
    configValue s' = configValue s /\
    length (mem s') = length (mem s) /\
    exists k,
      0 <= k <= n /\
      count spidrr_read evs = k /\
      firstn (Z.to_nat k) (mem s') =
        map u8 (reads_of (SPI_BASEADDR SPIDRR) evs) /\
      skipn (Z.to_nat k) (mem s') = skipn (Z.to_nat k) (mem s) /\
      writes_of (SPI_BASEADDR SPIDTR) evs =
        firstn (Z.to_nat (Z.min (k + 1) n)) (mem s) /\
      count spisr_read evs <= Z.min (k + 1) n * 0x10000 /\
      ((spi_poll_exhausted evs = false /\ r = n /\ k = n) \/
       (spi_poll_exhausted evs = true /\ r = to_char (-1) /\ k < n)).
Proof.
  intros Hn Hlen.
  destruct (nonempty_first (mem s)) as (d0 & Hd0); [lia|].
  assert (Hgoal : exists r s' evs,
    SPI_Write dev id n s = Ok (r, s') /\
    trace s' = evs ++ trace s /\
    configValue s' = configValue s /\
    length (mem s') = length (mem s) /\
    exists k,
      0 <= k <= n /\
      count spidrr_read evs = k /\
      firstn (Z.to_nat k) (mem s') =
        map u8 (reads_of (SPI_BASEADDR SPIDRR) evs) /\
      skipn (Z.to_nat k) (mem s') = skipn (Z.to_nat k) (mem s) /\
      writes_of (SPI_BASEADDR SPIDTR) evs =
        firstn (Z.to_nat (Z.min (k + 1) n)) (mem s) /\
      count spisr_read evs <= Z.min (k + 1) n * 0x10000 /\
      ((spi_poll_exhausted evs = false /\ r = n /\ k = n) \/
       (spi_poll_exhausted evs = true /\ r = to_char (-1) /\ k < n))).
  { unfold SPI_Write, SPI_Write_prologue.
    unfold bind, get_configValue, Xil_Out32, load, ret. norm.
    change (Z.to_nat 0) with 0%nat. rewrite Hd0. norm.
    set (l0 := mkLocals _ 0 0 0 65535).
    set (s1 := mkState _ _ _).
    assert (Hinv : spi_full_inv n s l0 s1).
    { unfold spi_full_inv, l0, s1. norm.
      repeat (split; [first [lia | reflexivity]|]).
      eexists [_; _; _; _]. split; [reflexivity|].
      split; [reflexivity|]. split; [reflexivity|]. split; [reflexivity|].
      split; [reflexivity|]. split; [|reflexivity].
      cbn [writes_of Addr_eqb app].
      replace (Z.to_nat (Z.min (0 + 1) n)) with 1%nat by lia.
      symmetry. now apply (firstn_S_snoc (mem s) 0). }
    destruct (while_rule (fun l => txCnt l <? n) (SPI_Write_body dev n)
                (spi_full_inv n s) (spi_full_exit n s)
                (fun l => Z.to_nat (n - txCnt l))) with
      (fuel := Z.to_nat n) (l := l0) (s := s1)
      as (r & s2 & Hw & Hr).
    - intros l Hc. apply Z.ltb_lt in Hc. lia.
    - intros l s' HI Hc. now apply SPI_Write_body_full.
    - exact Hinv.
    - unfold l0. cbn [txCnt]. lia.
    - rewrite Hw. destruct r as [l2|v].
      + destruct Hr as ((Htx & Hrx & Hto & Hcv & Hmem & Hskip & evs & Htr & Hrun & Hmax & Hbuf & Hpop & Hpush & Hsr) & Hc).
        apply Z.ltb_ge in Hc.
        assert (Hk : txCnt l2 = n) by lia. rewrite Hk in *.
        eexists _, _, (_ :: _ :: evs). split; [reflexivity|]. norm.
        split; [rewrite Htr; reflexivity|].
        split; [assumption|]. split; [assumption|].
        exists n. split; [lia|].
        split; [exact Hpop|]. split; [exact Hbuf|]. split; [exact Hskip|].
        split; [exact Hpush|].
        split; [cbn [count spisr_read is_In32]; fold spisr_read; lia|].
        left. split; [|split; [apply to_char_small; lia | reflexivity]].
        unfold spi_poll_exhausted. apply Z.leb_gt.
        now rewrite !max_run_cons_false by reflexivity.
      + destruct Hr as (Hv & Hcv & Hmem & evs & k & Htr & Hmax & Hk & Hpop & Hbuf & Hskip & Hpush & Hsr).
        eexists _, _, evs. split; [reflexivity|].
        split; [assumption|]. split; [assumption|]. split; [assumption|].
        exists k. split; [lia|].
        split; [exact Hpop|]. split; [exact Hbuf|]. split; [exact Hskip|].
        replace (Z.min (k + 1) n) with (k + 1) by lia.
        split; [exact Hpush|]. split; [exact Hsr|].
        right. split; [|split; [assumption | lia]].
        unfold spi_poll_exhausted. now apply Z.leb_le. }
  destruct Hgoal as (r & s' & evs & Hrun & Htr & Hrest).
  exists r, s', evs. split; [assumption|].
  split; [exact (run_events_prefix _ _ _ _ _ Hrun Htr)|].
  split; assumption.
Qed.

(** X1: a call of SPI_Write with a count of 1 to 255 and a buffer of at
    least count elements returns, whatever the peripheral does; it leaves
    the persistent configuration word as it was, keeps the length of the
    buffer, and never touches the elements from index count on. *)
Theorem SPI_Write_preserves id n s :
  1 <= n <= 255 -> (Z.to_nat n <= length (mem s))%nat ->
  exists r s',
    SPI_Write dev id n s = Ok (r, s') /\
    configValue s' = configValue s /\
    length (mem s') = length (mem s) /\
    skipn (Z.to_nat n) (mem s') = skipn (Z.to_nat n) (mem s).
Proof.
  intros Hn Hlen.
  destruct (SPI_Write_full id n s Hn Hlen)
    as (r & s' & evs & Hrun & _ & _ & Hcv & Hmem & k & Hk & _ & _ & Hskip & _).
  exists r, s'. repeat split; try assumption.
  apply (skipn_eq_le _ _ (Z.to_nat k)); [assumption | lia].
Qed.

(** X2: in a transfer during which no status poll uses up its countdown,
    the bytes pushed into the TX data register are the first count
    elements the buffer held at the call, in order, and exactly count bytes
    are popped from the RX data register: a byte is transmitted before the
    received byte overwrites it. *)
Theorem SPI_Write_transmits_buffer id n s :
  1 <= n <= 255 -> (Z.to_nat n <= length (mem s))%nat ->
  spi_poll_exhausted (run_events (SPI_Write dev id n) s) = false ->
  writes_of (SPI_BASEADDR SPIDTR) (run_events (SPI_Write dev id n) s)
    = firstn (Z.to_nat n) (mem s) /\
  count spidrr_read (run_events (SPI_Write dev id n) s) = n.
Proof.
  intros Hn Hlen Hex.
  destruct (SPI_Write_full id n s Hn Hlen)
    as (r & s' & evs & Hrun & Hev & _ & _ & _ & k & Hk & Hpop & _ & _ & Hpush & _ & Hcase).
  rewrite Hev in *.
  destruct Hcase as [(_ & _ & ->)|(Hex' & _)]; [|congruence].
  split; [|assumption]. rewrite Hpush. f_equal. lia.
Qed.

(** X3: when a status poll uses up its countdown after k bytes were
    received, k is below count and the buffer is left half transferred: its
    first k elements are the received bytes and the rest is as at the call;
    k + 1 bytes, the first k + 1 elements of the buffer, were pushed into
    the TX data register. *)
Theorem SPI_Write_timeout_partial id n s :
  1 <= n <= 255 -> (Z.to_nat n <= length (mem s))%nat ->
  spi_poll_exhausted (run_events (SPI_Write dev id n) s) = true ->
  exists s' k,
    SPI_Write dev id n s = Ok (to_char (-1), s') /\
    k = count spidrr_read (run_events (SPI_Write dev id n) s) /\
    0 <= k < n /\
    mem s' =
      map u8 (reads_of (SPI_BASEADDR SPIDRR)
                (run_events (SPI_Write dev id n) s))
      ++ skipn (Z.to_nat k) (mem s) /\
    writes_of (SPI_BASEADDR SPIDTR) (run_events (SPI_Write dev id n) s)
      = firstn (Z.to_nat (k + 1)) (mem s).
Proof.
  intros Hn Hlen Hex.
  destruct (SPI_Write_full id n s Hn Hlen)
    as (r & s' & evs & Hrun & Hev & _ & _ & _ & k & Hk & Hpop & Hbuf & Hskip & Hpush & _ & Hcase).
  rewrite Hev in *.
  destruct Hcase as [(Hex' & _)|(_ & -> & Hkn)]; [congruence|].
  exists s', k. split; [assumption|]. split; [now symmetry|]. split; [lia|].
  split.
  - rewrite <- Hbuf, <- Hskip. symmetry. apply firstn_skipn.
  - rewrite Hpush. f_equal. lia.
Qed.

(** X4: in either outcome a call of SPI_Write reads the status register at
    most count * 0x10000 times. *)
Theorem SPI_Write_status_reads_bounded id n s :
  1 <= n <= 255 -> (Z.to_nat n <= length (mem s))%nat ->
  count spisr_read (run_events (SPI_Write dev id n) s) <= n * 0x10000.
Proof.
  intros Hn Hlen.
  destruct (SPI_Write_full id n s Hn Hlen)
    as (r & s' & evs & Hrun & Hev & _ & _ & _ & k & Hk & _ & _ & _ & _ & Hsr & _).
  rewrite Hev. lia.
Qed.

(** X5: for a count of 255 the result of SPI_Write is the char 0xFF in both
    outcomes: the value returned for a complete transfer is the value
    returned for a timeout. *)
Theorem SPI_Write_255_result id s :
  (255 <= length (mem s))%nat ->
  exists s', SPI_Write dev id 255 s = Ok (to_char (-1), s').
Proof.
  intros Hlen.
  destruct (SPI_Write_full id 255 s ltac:(lia) ltac:(lia))
    as (r & s' & evs & Hrun & _ & _ & _ & _ & k & _ & _ & _ & _ & _ & _ & Hcase).
  exists s'. destruct Hcase as [(_ & -> & _)|(_ & -> & _)]; exact Hrun.
Qed.

(** X6: SPI_Read is a full-duplex transfer like SPI_Write: when no status
    poll uses up its countdown it replaces the first count elements of the
    buffer by the received bytes, leaves the rest alone, and has transmitted
    the first count elements the buffer held at the call.  Its result is
    count converted to the return type char: the caller sees count where
    char is unsigned or count is at most 127, and count - 256 where char is
    signed and count is 128 or more. *)
Theorem SPI_Read_full_duplex id n s :
  1 <= n <= 255 -> (Z.to_nat n <= length (mem s))%nat ->
  spi_poll_exhausted (run_events (SPI_Read dev id n) s) = false ->
  exists r s',
    SPI_Read dev id n s = Ok (r, s') /\
    char_value false r = n /\
    char_value true r = (if n <? 128 then n else n - 256) /\
    mem s' =
      map u8 (reads_of (SPI_BASEADDR SPIDRR)
                (run_events (SPI_Read dev id n) s))
      ++ skipn (Z.to_nat n) (mem s) /\
    writes_of (SPI_BASEADDR SPIDTR) (run_events (SPI_Read dev id n) s)
      = firstn (Z.to_nat n) (mem s).
Proof.
  change (SPI_Read dev id n) with (SPI_Write dev id n).
  intros Hn Hlen Hex.
  destruct (SPI_Write_full id n s Hn Hlen)
    as (r & s' & evs & Hrun & Hev & _ & _ & _ & k & Hk & _ & Hbuf & Hskip & Hpush & _ & Hcase).
  rewrite Hev in *.
  destruct Hcase as [(_ & -> & ->)|(Hex' & _)]; [|congruence].
  exists n, s'. split; [assumption|].
  split; [reflexivity|]. split; [reflexivity|]. split.
  - rewrite <- Hbuf, <- Hskip. symmetry. apply firstn_skipn.
  - rewrite Hpush. f_equal. lia.
Qed.

End SPI_more.

Lemma u32_range z : 0 <= u32 z < 2 ^ 32.
Proof. unfold u32. apply Z.mod_pos_bound. lia. Qed.

Lemma lor_u32 a b : 0 <= a < 2 ^ 32 -> 0 <= Z.lor a (u32 b) < 2 ^ 32.
Proof.
  intros Ha.
  assert (H : u32 (Z.lor a (u32 b)) = Z.lor a (u32 b)).
  { apply Z.bits_inj'. intros i Hi.
    rewrite u32_testbit, Z.lor_spec, u32_testbit by assumption.
    destruct (Z.ltb_spec i 32) as [Hlt|Hge]; [reflexivity|].
    cbn [andb]. rewrite orb_false_r. symmetry.
    rewrite <- (u32_small a Ha), u32_testbit by assumption.
    destruct (Z.ltb_spec i 32); [lia | reflexivity]. }
  rewrite <- H. apply u32_range.
Qed.

Section Init_more.
Context {bits : SPICR_bits}.
Variable dev : list Event -> Addr -> Z.

(** A word with the inhibit bit set is what setting the bit again gives. *)
Lemma inhibited_word cv :
  0 <= cv < 2 ^ 32 -> Z.testbit cv MasterTranInh = true ->
  Z.lor (u32 cv) (Z.shiftl 1 MasterTranInh) = cv.
Proof.
  intros Hcv Hbit. pose proof MasterTranInh_range as Hk.
  rewrite u32_small by assumption.
  apply Z.bits_inj'. intros i Hi.
  rewrite Z.lor_spec, Z.shiftl_1_l, Z.pow2_bits_eqb by lia.
  destruct (Z.eqb_spec MasterTranInh i) as [E|E].
  - rewrite <- E, Hbit. reflexivity.
  - apply orb_false_r.
Qed.

(** What a call of [SPI_Init] does to a state: it ORs a 32-bit mask, fixed
    by the arguments and holding the inhibit bit, into the word and writes
    two registers. *)
Lemma SPI_Init_shape lsbFirst clockFreq clockPol clockEdg :
  exists m,
    Z.testbit (u32 m) MasterTranInh = true /\
    forall s,
      SPI_Init lsbFirst clockFreq clockPol clockEdg s =
        Ok (to_char 0,
            mkState (Z.lor (configValue s) (u32 m)) (mem s)
              ([Out32 (SPI_BASEADDR SPICR) (Z.lor (configValue s) (u32 m));
                Out32 (SPI_BASEADDR SPISSR) 0xFFFFFFFF] ++ trace s)).
Proof.
  pose proof MasterTranInh_range as Hk.
  eexists. split; [|intros s; reflexivity].
  rewrite u32_testbit by lia.
  rewrite Z.lor_spec, Z.lor_spec, Z.shiftl_1_l, Z.pow2_bits_true by lia.
  destruct (Z.ltb_spec MasterTranInh 32); [|lia].
  cbn [andb orb]. apply orb_true_r.
Qed.

(** X7: SPI_Init returns 0 whatever its arguments are, writes all-ones to
    SPISSR and then the updated configValue to SPICR, and leaves the buffer
    alone; the updated word has the transaction-inhibit bit set and still
    fits 32 bits; a second call with the same arguments does not change the
    word again. *)
Theorem SPI_Init_spec lsbFirst clockFreq clockPol clockEdg s :
  0 <= configValue s < 2 ^ 32 ->
  exists s',
    SPI_Init lsbFirst clockFreq clockPol clockEdg s = Ok (0, s') /\
    mem s' = mem s /\
    rev (run_events (SPI_Init lsbFirst clockFreq clockPol clockEdg) s) =
      [Out32 (SPI_BASEADDR SPISSR) 0xFFFFFFFF;
       Out32 (SPI_BASEADDR SPICR) (configValue s')] /\
    0 <= configValue s' < 2 ^ 32 /\
    Z.testbit (configValue s') MasterTranInh = true /\
    configValue (SPI_Init_calls [(lsbFirst, clockFreq, clockPol, clockEdg)] s')
      = configValue s'.
Proof.
  intros Hcv.
  destruct (SPI_Init_shape lsbFirst clockFreq clockPol clockEdg)
    as (m & Hbit & Hrun).
  eexists. split; [exact (Hrun s)|]. norm.
  split; [reflexivity|].
  split; [rewrite (run_events_prefix _ _ _ _ _ (Hrun s) eq_refl); reflexivity|].
  split; [now apply lor_u32|].
  split; [rewrite Z.lor_spec, Hbit; apply orb_true_r|].
  cbn [SPI_Init_calls]. rewrite Hrun. norm.
  now rewrite <- Z.lor_assoc, Z.lor_diag.
Qed.

(** X8: after SPI_Init, a transfer of 1 to 255 bytes, complete or timed
    out, leaves the hardware as initialised: the last value written to
    SPICR is the persistent word configValue, the last value written to
    SPISSR is all-ones, and configValue is unchanged. *)
Theorem SPI_Write_after_SPI_Init lsbFirst clockFreq clockPol clockEdg id n s r0 s1 :
  0 <= configValue s < 2 ^ 32 ->
  SPI_Init lsbFirst clockFreq clockPol clockEdg s = Ok (r0, s1) ->
  1 <= n <= 255 -> (Z.to_nat n <= length (mem s1))%nat ->
  exists r s2,
    SPI_Write dev id n s1 = Ok (r, s2) /\
    last_write (SPI_BASEADDR SPICR) (trace s2) = Some (configValue s1) /\
    last_write (SPI_BASEADDR SPISSR) (trace s2) = Some 0xFFFFFFFF /\
    configValue s2 = configValue s1.
Proof.
  intros Hcv Hinit Hn Hlen.
  destruct (SPI_Init_shape lsbFirst clockFreq clockPol clockEdg)
    as (m & Hbitm & Hinit').
  rewrite Hinit' in Hinit. injection Hinit as _ <-.
  assert (Hcv1 : 0 <= Z.lor (configValue s) (u32 m) < 2 ^ 32)
    by now apply lor_u32.
  assert (Hbit : Z.testbit (Z.lor (configValue s) (u32 m)) MasterTranInh = true)
    by (rewrite Z.lor_spec, Hbitm; apply orb_true_r).
  set (s1 := mkState _ _ _) in *.
  destruct (nonempty_first (mem s1)) as (d0 & Hd0); [lia|].
  destruct (SPI_Write_run dev id n s1 d0)
    as (r & s2 & evs & Hrun & Htr & Hcv2 & _ & Hcase);
    [lia | assumption | assumption |].
  exists r, s2. split; [assumption|].
  change (configValue s1) with (Z.lor (configValue s) (u32 m)) in *.
  rewrite set_after_clear, (inhibited_word _ Hcv1 Hbit) in Hcase.
  rewrite Htr.
  destruct Hcase as [(_ & _ & evs' & -> & _)|(_ & _ & evs' & ->)];
    repeat split; try assumption; reflexivity.
Qed.

End Init_more.

(** The mask 0xFFFF applied before the store has no effect on the byte. *)
Lemma u8_land_0xFFFF v : u8 (Z.land v 0xFFFF) = u8 v.
Proof.
  unfold u8. rewrite <- !Z.land_ones by lia.
  now rewrite <- Z.land_assoc.
Qed.

Lemma i2c_busy_counts l :
  Forall (fun e => i2c_busy e = true) l ->
  count sr_read l = Z.of_nat (length l) /\
  count rx_read l = 0 /\
  reads_of (I2C_BASEADDR RX_FIFO) l = [] /\
  Forall (fun e => is_read e = true) l.
Proof.
  induction 1 as [|e l He _ (IH1 & IH2 & IH3 & IH4)]; [repeat split; constructor|].
  destruct e as [[[]|[]] v|b v|n]; simpl in He; try discriminate.
  cbn [count sr_read rx_read is_In32 Addr_eqb reads_of length].
  fold sr_read rx_read.
  rewrite Nat2Z.inj_succ. repeat split; try assumption; [lia|].
  constructor; [reflexivity | assumption].
Qed.

(** Events that do not satisfy [p] below a trace do not lengthen its runs. *)
Lemma runs_app_none p x older :
  Forall (fun e => p e = false) older ->
  run p (x ++ older) = run p x /\ max_run p (x ++ older) = max_run p x.
Proof.
  intros Hold.
  assert (H0 : run p older = 0 /\ max_run p older = 0).
  { induction Hold as [|e older He _ (IH1 & IH2)]; [split; reflexivity|].
    rewrite max_run_cons_false, run_cons_false by assumption.
    split; [reflexivity | exact IH2]. }
  destruct H0 as (H1 & H2).
  induction x as [|e x (IH1 & IH2)]; [cbn [app]; now rewrite H1, H2|].
  cbn [app]. rewrite !max_run_cons, !run_cons, IH1, IH2. split; reflexivity.
Qed.

Lemma i2c_prologue_quiet sa n p :
  (forall a v, p (Out32 a v) = false) -> (forall d, p (DelayMs d) = false) ->
  Forall (fun e => p e = false) (i2c_prologue_events sa n).
Proof. intros Hw Hd. repeat constructor; auto. Qed.

(** The address command keeps the low seven bits of [slaveAddress] only. *)
Lemma address_command_7bit c sa :
  Z.land c 0x100 = 0x100 -> 0 <= sa < 128 ->
  Z.lor c (Z.shiftl (sa + 128) 1) = Z.lor c (Z.shiftl sa 1).
Proof.
  intros Hc Hsa.
  rewrite !Z.shiftl_mul_pow2 by lia. change (2 ^ 1) with 2.
  replace ((sa + 128) * 2) with (sa * 2 + 0x100) by lia.
  assert (Hd : Z.land (sa * 2) 0x100 = 0).
  { apply Z.bits_inj'. intros i Hi.
    rewrite Z.land_spec, Z.bits_0. change 0x100 with (2 ^ 8).
    rewrite Z.pow2_bits_eqb by lia.
    destruct (Z.eqb_spec 8 i) as [<-|]; [|apply andb_false_r].
    rewrite <- (Z.mod_small (sa * 2) (2 ^ 8)) by lia.
    rewrite Z.mod_pow2_bits_high by lia. reflexivity. }
  rewrite (Z.add_nocarry_lxor _ _ Hd), (Z.lxor_lor _ _ Hd).
  rewrite (Z.lor_comm (sa * 2)), Z.lor_assoc.
  f_equal.
  apply Z.bits_inj'. intros i Hi.
  pose proof (f_equal (fun z => Z.testbit z i) Hc) as Hb. cbv beta in Hb.
  rewrite Z.land_spec in Hb. rewrite Z.lor_spec.
  destruct (Z.testbit c i), (Z.testbit 256 i); try reflexivity; discriminate.
Qed.

Section I2C_more.
Variable dev : list Event -> Addr -> Z.

Lemma I2C_Read_body_full sa n s0 l s :
  0 <= n <= 255 -> (Z.to_nat n <= length (mem s0))%nat ->
  i2c_full_inv sa n s0 l s -> (rxCnt l <? n) = true ->
  exists r s', I2C_Read_body dev l s = Ok (r, s') /\
    match r with
    | inl l' => i2c_full_inv sa n s0 l' s' /\
                (Z.to_nat (n - rxCnt l') < Z.to_nat (n - rxCnt l))%nat
    | inr v => i2c_full_exit sa n s0 v s'
    end.
Proof.
  intros Hn Hlen (Hrx & Hto & Hcv & Hmem & Hskip & E & Htr & Hrd & Hrun & Hmax & Hcnt & Hbuf & Hsr) Hc.
  apply Z.ltb_lt in Hc.
  unfold I2C_Read_body. unfold bind at 1.
  destruct (I2C_Read_poll_spec dev (S (Z.to_nat (timeout l))) l s)
    as (l1 & st & busy & Hpoll & Hall & _ & Hr1 & Hcase); [lia | lia |].
  rewrite Hpoll. clear Hpoll.
  destruct l as [cfg sp rx tx to], l1 as [cfg1 sp1 rx1 tx1 to1].
  cbn [cfgValue SPIStatus rxCnt txCnt timeout] in *. subst rx1 to.
  destruct (i2c_busy_counts _ Hall) as (Hbsr & Hbcnt & Hbpop & Hbrd).
  set (pro := i2c_prologue_events sa n) in *.
  assert (Hbusy_len : Z.of_nat (length busy) <= 0xFFFFFF) by (destruct Hcase; lia).
  set (E1 := In32 (I2C_BASEADDR SR) st :: busy ++ E).
  assert (HE1 : In32 (I2C_BASEADDR SR) st :: busy ++ trace s
                = E1 ++ pro ++ trace s0).
  { unfold E1. rewrite Htr. cbn [app]. now rewrite <- app_assoc. }
  assert (Hrd1 : Forall (fun e => is_read e = true) E1).
  { unfold E1. constructor; [reflexivity|]. apply Forall_app. now split. }
  assert (Hrun1 : run i2c_busy (busy ++ E) = Z.of_nat (length busy)).
  { rewrite run_app_all by assumption. lia. }
  assert (Hmax1 : max_run i2c_busy (busy ++ E)
                  = Z.max (Z.of_nat (length busy)) (max_run i2c_busy E)).
  { rewrite max_run_app_all by assumption. now rewrite Hrun, Z.add_0_r. }
  assert (Hcnt1 : count rx_read E1 = rx).
  { unfold E1. cbn [count rx_read is_In32 Addr_eqb]. rewrite count_app.
    fold rx_read. lia. }
  assert (Hsr1 : count sr_read E1 <= (rx + 1) * 0x1000000).
  { unfold E1. cbn [count sr_read is_In32 Addr_eqb]. rewrite count_app.
    fold sr_read. lia. }
  assert (Hbuf1 : reads_of (I2C_BASEADDR RX_FIFO) E1
                  = reads_of (I2C_BASEADDR RX_FIFO) E).
  { unfold E1. cbn [reads_of Addr_eqb]. rewrite reads_of_app, Hbpop.
    apply app_nil_r. }
  rewrite HE1.
  destruct Hcase as [(Hst & Hto1 & Hge)|(Hst & Hlen1 & Hto1)].
  - (* data became available in time *)
    assert (Hne : (to1 =? u32 (-1)) = false).
    { apply Z.eqb_neq. change (u32 (-1)) with 4294967295. lia. }
    rewrite Hne. clear Hne.
    assert (Hidx : (Z.to_nat rx < length (mem s))%nat) by lia.
    pose proof Hidx as Hidxb. apply Nat.ltb_lt in Hidxb.
    unfold bind, Xil_In32, Xil_Out32, ret, load, store. norm.
    rewrite Hidxb. norm.
    set (v := u32 (dev _ (I2C_BASEADDR RX_FIFO))).
    rewrite !(u32_small (rx + 1)) by lia.
    eexists _, _. split; [reflexivity|].
    split; [|cbn [rxCnt]; lia].
    unfold i2c_full_inv. norm.
    split; [lia|]. split; [reflexivity|]. split; [assumption|].
    split; [rewrite update_length; assumption|].
    split.
    { rewrite skipn_update_above by lia.
      replace (Z.to_nat (rx + 1)) with (S (Z.to_nat rx)) by lia.
      now apply skipn_S_eq. }
    exists (In32 (I2C_BASEADDR RX_FIFO) v :: E1).
    split; [reflexivity|].
    split; [constructor; [reflexivity | assumption]|].
    split; [now rewrite run_cons_false|].
    split.
    { unfold E1. rewrite !max_run_cons_false; try reflexivity;
        [|cbn [i2c_busy]; now rewrite Hst].
      rewrite Hmax1. lia. }
    split.
    { change (count rx_read (In32 (I2C_BASEADDR RX_FIFO) v :: E1))
        with (1 + count rx_read E1). lia. }
    split.
    { replace (Z.to_nat (rx + 1)) with (S (Z.to_nat rx)) by lia.
      rewrite firstn_update_snoc by assumption.
      change (reads_of (I2C_BASEADDR RX_FIFO) (In32 (I2C_BASEADDR RX_FIFO) v :: E1))
        with (reads_of (I2C_BASEADDR RX_FIFO) E1 ++ [v]).
      rewrite Hbuf1, map_app, Hbuf, u8_land_0xFFFF. reflexivity. }
    change (count sr_read (In32 (I2C_BASEADDR RX_FIFO) v :: E1))
      with (0 + count sr_read E1). lia.
  - (* the countdown ran out *)
    rewrite Hto1, Z.eqb_refl.
    unfold bind, Xil_In32, Xil_Out32, ret, load, store. norm.
    eexists _, _. split; [reflexivity|].
    unfold i2c_full_exit. norm. rewrite (u8_small rx) by lia.
    split; [assumption|]. split; [assumption|]. split; [assumption|].
    split; [lia|].
    exists E1.
    split; [reflexivity|].
    split; [assumption|].
    split.
    { unfold E1. rewrite max_run_cons, run_cons. cbn [i2c_busy].
      rewrite Hst, Hrun1. cbn [negb]. lia. }
    split; [exact Hcnt1|].
    split; [rewrite Hbuf1; exact Hbuf | exact Hsr1].
Qed.

(** The whole call, with the buffer, the request and the status reads
    accounted for, in both outcomes. *)
Lemma I2C_Read_full sa n sb s :
  0 <= n <= 255 -> (Z.to_nat n <= length (mem s))%nat ->
  exists r s' newer tail,
    I2C_Read dev sa n sb s = Ok (r, s') /\
    run_events (I2C_Read dev sa n sb) s
      = tail ++ newer ++ i2c_prologue_events sa n /\
    configValue s' = configValue s /\
    length (mem s') = length (mem s) /\
    Forall (fun e => is_read e = true) newer /\
    0 <= r <= n /\
    count rx_read newer = r /\
    firstn (Z.to_nat r) (mem s') =
      map u8 (reads_of (I2C_BASEADDR RX_FIFO) newer) /\
    skipn (Z.to_nat r) (mem s') = skipn (Z.to_nat r) (mem s) /\
    count sr_read newer <= Z.min (r + 1) n * 0x1000000 /\
    ((max_run i2c_busy newer < 0x1000000 /\ r = n /\ tail = [DelayMs 10]) \/
     (0x1000000 <= max_run i2c_busy newer /\ r < n /\
      tail = i2c_recovery_events)).
Proof.
  intros Hn Hlen.
  assert (Hgoal : exists r s' newer tail,
    I2C_Read dev sa n sb s = Ok (r, s') /\
    trace s' = (tail ++ newer ++ i2c_prologue_events sa n) ++ trace s /\
    configValue s' = configValue s /\
    length (mem s') = length (mem s) /\
    Forall (fun e => is_read e = true) newer /\
    0 <= r <= n /\
    count rx_read newer = r /\
    firstn (Z.to_nat r) (mem s') =
      map u8 (reads_of (I2C_BASEADDR RX_FIFO) newer) /\
    skipn (Z.to_nat r) (mem s') = skipn (Z.to_nat r) (mem s) /\
    count sr_read newer <= Z.min (r + 1) n * 0x1000000 /\
    ((max_run i2c_busy newer < 0x1000000 /\ r = n /\ tail = [DelayMs 10]) \/
     (0x1000000 <= max_run i2c_busy newer /\ r < n /\
      tail = i2c_recovery_events))).
  { unfold I2C_Read, I2C_Read_prologue.
    unfold bind, Xil_Out32, TIME_DelayMs, ret. norm.
    set (l0 := mkLocals 0 0 0 0 16777215).
    set (s1 := mkState _ _ _).
    assert (Hinv : i2c_full_inv sa n s l0 s1).
    { unfold i2c_full_inv, l0, s1. norm.
      repeat (split; [first [lia | reflexivity]|]).
      exists []. split; [reflexivity|]. split; [constructor|].
      repeat split; reflexivity. }
    destruct (while_rule (fun l => rxCnt l <? n) (I2C_Read_body dev)
                (i2c_full_inv sa n s) (i2c_full_exit sa n s)
                (fun l => Z.to_nat (n - rxCnt l))) with
      (fuel := Z.to_nat n) (l := l0) (s := s1)
      as (r & s2 & Hw & Hr).
    - intros l Hc. apply Z.ltb_lt in Hc. lia.
    - intros l s' HI Hc. now apply I2C_Read_body_full.
    - exact Hinv.
    - unfold l0. cbn [rxCnt]. lia.
    - rewrite Hw. destruct r as [l2|v].
      + destruct Hr as ((Hrx & Hto & Hcv & Hmem & Hskip & E & Htr & Hrd & Hrun & Hmax & Hcnt & Hbuf & Hsr) & Hc).
        apply Z.ltb_ge in Hc.
        assert (Hrn : rxCnt l2 = n) by lia. rewrite Hrn in *.
        eexists _, _, E, [DelayMs 10]. split; [reflexivity|]. norm.
        rewrite (u8_small n) by lia.
        split; [rewrite Htr; cbn [app]; rewrite <- !app_assoc; reflexivity|].
        repeat (split; [first [assumption | lia]|]).
        left. repeat split; assumption.
      + destruct Hr as (Hcv & Hmem & Hskip & Hv & E & Htr & Hrd & Hmax & Hcnt & Hbuf & Hsr).
        eexists _, _, E, i2c_recovery_events. split; [reflexivity|].
        split; [rewrite Htr, <- !app_assoc; reflexivity|].
        repeat (split; [first [assumption | lia]|]).
        right. repeat split; first [assumption | lia]. }
  destruct Hgoal as (r & s' & newer & tail & Hrun & Htr & Hrest).
  exists r, s', newer, tail. split; [assumption|].
  split; [exact (run_events_prefix _ _ _ _ _ Hrun Htr)|].
  assumption.
Qed.

Lemma I2C_Read_events_facts newer tail sa n :
  Forall (fun e => is_read e = true) newer ->
  tail = [DelayMs 10] \/ tail = i2c_recovery_events ->
  let evs := tail ++ newer ++ i2c_prologue_events sa n in
  max_run i2c_busy evs = max_run i2c_busy newer /\
  reads_of (I2C_BASEADDR RX_FIFO) evs = reads_of (I2C_BASEADDR RX_FIFO) newer /\
  count rx_read evs = count rx_read newer /\
  count sr_read evs = count sr_read newer.
Proof.
  intros Hrd Htail evs. unfold evs.
  assert (Hq : max_run i2c_busy (newer ++ i2c_prologue_events sa n)
               = max_run i2c_busy newer).
  { apply runs_app_none. apply i2c_prologue_quiet; reflexivity. }
  rewrite <- Hq.
  destruct Htail as [-> | ->]; cbn [app i2c_recovery_events];
    rewrite ?max_run_cons_false by reflexivity;
    cbn [reads_of count rx_read sr_read is_In32];
    fold rx_read sr_read;
    rewrite reads_of_app, !count_app; cbn; repeat split; lia.
Qed.

(** X9: every call of I2C_Read with a count of 0 to 255 and a buffer of at
    least count elements returns, and its register accesses are, in order:
    the request (soft reset, enable, 10 ms delay, address command with the
    read bit, 0x200 + count), then reads only, then either the closing
    10 ms delay or the four recovery writes.  It closes with the delay and
    returns count exactly when no poll used up its countdown; otherwise it
    returns less than count. *)
Theorem I2C_Read_outcomes sa n sb s :
  0 <= n <= 255 -> (Z.to_nat n <= length (mem s))%nat ->
  exists r s' polls tail,
    I2C_Read dev sa n sb s = Ok (r, s') /\
    rev (run_events (I2C_Read dev sa n sb) s) =
      [Out32 (I2C_BASEADDR CR) 0x002;
       Out32 (I2C_BASEADDR CR) 0x001;
       DelayMs 10;
       Out32 (I2C_BASEADDR TX_FIFO) (Z.lor 0x101 (Z.shiftl sa 1));
       Out32 (I2C_BASEADDR TX_FIFO) (0x200 + n)]
      ++ polls ++ tail /\
    Forall (fun e => is_read e = true) polls /\
    ((i2c_poll_exhausted (run_events (I2C_Read dev sa n sb) s) = false /\
      r = n /\ tail = [DelayMs 10]) \/
     (i2c_poll_exhausted (run_events (I2C_Read dev sa n sb) s) = true /\
      r < n /\ tail = rev i2c_recovery_events)).
Proof.
  intros Hn Hlen.
  destruct (I2C_Read_full sa n sb s Hn Hlen)
    as (r & s' & newer & tail & Hrun & Hev & _ & _ & Hrd & _ & _ & _ & _ & _ & Hcase).
  destruct (I2C_Read_events_facts newer tail sa n Hrd) as (Hmax & _).
  { destruct Hcase as [(_ & _ & ->)|(_ & _ & ->)]; auto. }
  exists r, s', (rev newer), (rev tail). split; [assumption|].
  rewrite Hev. unfold i2c_poll_exhausted. rewrite Hmax.
  split; [rewrite !rev_app_distr, <- app_assoc; reflexivity|].
  split; [now apply Forall_rev|].
  destruct Hcase as [(Hm & -> & ->)|(Hm & Hr & ->)]; [left|right];
    repeat split; try assumption; first [now apply Z.leb_gt | now apply Z.leb_le].
Qed.

(** X10: in either outcome I2C_Read returns the number r of bytes it popped
    from the RX FIFO; the first r elements of the buffer are these bytes
    (the low eight bits of each value read), the elements from index r on
    are as at the call, and configValue is untouched. *)
Theorem I2C_Read_buffer sa n sb s :
  0 <= n <= 255 -> (Z.to_nat n <= length (mem s))%nat ->
  exists r s',
    I2C_Read dev sa n sb s = Ok (r, s') /\
    0 <= r <= n /\
    r = count rx_read (run_events (I2C_Read dev sa n sb) s) /\
    mem s' =
      map u8 (reads_of (I2C_BASEADDR RX_FIFO)
                (run_events (I2C_Read dev sa n sb) s))
      ++ skipn (Z.to_nat r) (mem s) /\
    configValue s' = configValue s.
Proof.
  intros Hn Hlen.
  destruct (I2C_Read_full sa n sb s Hn Hlen)
    as (r & s' & newer & tail & Hrun & Hev & Hcv & _ & Hrd & Hr & Hcnt & Hbuf & Hskip & _ & Hcase).
  destruct (I2C_Read_events_facts newer tail sa n Hrd) as (_ & Hreads & Hcount & _).
  { destruct Hcase as [(_ & _ & ->)|(_ & _ & ->)]; auto. }
  exists r, s'. split; [assumption|]. split; [assumption|].
  rewrite Hev, Hreads, Hcount.
  split; [now symmetry|]. split; [|assumption].
  rewrite <- Hbuf, <- Hskip. symmetry. apply firstn_skipn.
Qed.

(** X11: in either outcome a call of I2C_Read reads the status register at
    most count * 0x1000000 times. *)
Theorem I2C_Read_status_reads_bounded sa n sb s :
  0 <= n <= 255 -> (Z.to_nat n <= length (mem s))%nat ->
  count sr_read (run_events (I2C_Read dev sa n sb) s) <= n * 0x1000000.
Proof.
  intros Hn Hlen.
  destruct (I2C_Read_full sa n sb s Hn Hlen)
    as (r & s' & newer & tail & Hrun & Hev & _ & _ & Hrd & Hr & _ & _ & _ & Hsr & Hcase).
  destruct (I2C_Read_events_facts newer tail sa n Hrd) as (_ & _ & _ & Hcount).
  { destruct Hcase as [(_ & _ & ->)|(_ & _ & ->)]; auto. }
  rewrite Hev, Hcount. lia.
Qed.

(** X12: the recovery of a timed-out I2C_Read is a re-initialisation: its
    last four register accesses are the register accesses of a call of
    I2C_Init. *)
Theorem I2C_Read_recovery_is_I2C_Init sa n sb s clockFreq s0 :
  0 <= n <= 255 -> (Z.to_nat n <= length (mem s))%nat ->
  i2c_poll_exhausted (run_events (I2C_Read dev sa n sb) s) = true ->
  firstn 4 (run_events (I2C_Read dev sa n sb) s)
  = run_events (I2C_Init clockFreq) s0.
Proof.
  intros Hn Hlen Hex.
  destruct (I2C_Read_full sa n sb s Hn Hlen)
    as (r & s' & newer & tail & Hrun & Hev & _ & _ & Hrd & _ & _ & _ & _ & _ & Hcase).
  destruct (I2C_Read_events_facts newer tail sa n Hrd) as (Hmax & _).
  { destruct Hcase as [(_ & _ & ->)|(_ & _ & ->)]; auto. }
  unfold i2c_poll_exhausted in Hex. rewrite Hev, Hmax in Hex.
  apply Z.leb_le in Hex.
  rewrite Hev, I2C_Init_events.
  destruct Hcase as [(Hm & _)|(_ & _ & ->)]; [lia | reflexivity].
Qed.

(** X13: only the low seven bits of slaveAddress reach the bus: calls of
    I2C_Read, and of I2C_Write, with the addresses a and a + 128 are the
    same. *)
Theorem I2C_address_is_7_bit sa n sb s :
  0 <= sa < 128 ->
  I2C_Read dev (sa + 128) n sb s = I2C_Read dev sa n sb s /\
  I2C_Write (sa + 128) n sb s = I2C_Write sa n sb s.
Proof.
  intros Hsa. unfold I2C_Read, I2C_Read_prologue, I2C_Write.
  rewrite !address_command_7bit by (reflexivity || assumption).
  split; reflexivity.
Qed.

(** X14: with a count of zero I2C_Write sends the address command and
    nothing else: no data byte and no stop marker; it returns 0. *)
Theorem I2C_Write_count_zero sa sb s :
  I2C_Write sa 0 sb s =
  Ok (0, mkState (configValue s) (mem s)
           (rev [Out32 (I2C_BASEADDR CR) 0x002;
                 Out32 (I2C_BASEADDR CR) 0x001;
                 DelayMs 10;
                 Out32 (I2C_BASEADDR TX_FIFO) (Z.lor 0x100 (Z.shiftl sa 1));
                 DelayMs 10] ++ trace s)).
Proof. reflexivity. Qed.

End I2C_more.

(** ** UART *)

Section UART_props.
Context {masks : UART_masks}.
Variable udev : list UartEvent -> uart_reg -> Z.

Lemma after_polls_S j h :
  after_polls udev (S j) h =
  UartIn UART_STAT (u32 (udev (after_polls udev j h) UART_STAT))
  :: after_polls udev j h.
Proof.
  revert h. induction j as [|j IH]; intros h; [reflexivity|].
  change (after_polls udev (S (S j)) h)
    with (after_polls udev (S j) (UartIn UART_STAT (u32 (udev h UART_STAT)) :: h)).
  rewrite IH. reflexivity.
Qed.

Lemma after_polls_writes a j h :
  uart_writes_of a (after_polls udev j h) = uart_writes_of a h.
Proof.
  induction j as [|j IH]; [reflexivity|].
  rewrite after_polls_S. exact IH.
Qed.

Lemma after_polls_length j h :
  length (after_polls udev j h) = (j + length h)%nat.
Proof.
  induction j as [|j IH]; [reflexivity|].
  rewrite after_polls_S. simpl. now rewrite IH.
Qed.

(** A wait returns at the first poll that shows the flag. *)
Lemma UART_WriteChar_wait_returns j : forall fuel h,
  (j < fuel)%nat ->
  Z.land (u32 (udev (after_polls udev j h) UART_STAT)) 0x4 <> 0 ->
  (forall i, (i < j)%nat ->
     Z.land (u32 (udev (after_polls udev i h) UART_STAT)) 0x4 = 0) ->
  UART_WriteChar_wait udev fuel h = Ok (tt, after_polls udev (S j) h).
Proof.
  induction j as [|j IH]; intros [|fuel] h Hf Hset Hclr; try lia.
  - cbn [UART_WriteChar_wait]. unfold ubind, UART_In32.
    cbn [after_polls] in Hset. apply Z.eqb_neq in Hset. rewrite Hset.
    reflexivity.
  - cbn [UART_WriteChar_wait]. unfold ubind at 1. unfold UART_In32 at 1.
    pose proof (Hclr 0%nat ltac:(lia)) as H0. cbn [after_polls] in H0.
    apply Z.eqb_eq in H0. rewrite H0.
    apply IH; [lia | exact Hset |].
    intros i Hi. apply (Hclr (S i)). lia.
Qed.

Lemma UART_ReadChar_wait_returns j : forall fuel h,
  (j < fuel)%nat ->
  Z.land (u32 (udev (after_polls udev j h) UART_STAT)) UART_RX_VALID <> 0 ->
  (forall i, (i < j)%nat ->
     Z.land (u32 (udev (after_polls udev i h) UART_STAT)) UART_RX_VALID = 0) ->
  UART_ReadChar_wait udev fuel h = Ok (tt, after_polls udev (S j) h).
Proof.
  induction j as [|j IH]; intros [|fuel] h Hf Hset Hclr; try lia.
  - cbn [UART_ReadChar_wait]. unfold ubind, UART_In32.
    cbn [after_polls] in Hset. apply Z.eqb_neq in Hset. rewrite Hset.
    reflexivity.
  - cbn [UART_ReadChar_wait]. unfold ubind at 1. unfold UART_In32 at 1.
    pose proof (Hclr 0%nat ltac:(lia)) as H0. cbn [after_polls] in H0.
    apply Z.eqb_eq in H0. rewrite H0.
    apply IH; [lia | exact Hset |].
    intros i Hi. apply (Hclr (S i)). lia.
Qed.

(** One call of [UART_WriteChar] with a UART that shows TX empty in time:
    each wait ends with the first status read that shows the bit. *)
Lemma UART_WriteChar_run k fuel data h :
  shows_within udev 0x4 k -> (k <= fuel)%nat ->
  exists j1 j2,
    (j1 < k)%nat /\ (j2 < k)%nat /\
    UART_WriteChar udev fuel data h =
      Ok (tt, after_polls udev (S j2)
                (UartOut UART_TX (u32 data) :: after_polls udev (S j1) h)) /\
    first_shown udev 0x4 h j1 /\
    first_shown udev 0x4
      (UartOut UART_TX (u32 data) :: after_polls udev (S j1) h) j2.
Proof.
  intros Hready Hfuel.
  destruct (Hready h) as (j1 & Hj1 & Hset1 & Hclr1).
  destruct (Hready (UartOut UART_TX (u32 data) :: after_polls udev (S j1) h))
    as (j2 & Hj2 & Hset2 & Hclr2).
  exists j1, j2. split; [assumption|]. split; [assumption|].
  split; [|now repeat split].
  unfold UART_WriteChar. unfold ubind at 1.
  rewrite (UART_WriteChar_wait_returns j1) by (assumption || lia).
  unfold ubind at 1. unfold UART_Out32 at 1.
  now apply UART_WriteChar_wait_returns; [lia | |].
Qed.

(** A wait never returns when no status read shows the flag. *)
Lemma UART_WriteChar_wait_blocks fuel : forall h,
  (forall j, Z.land (u32 (udev (after_polls udev j h) UART_STAT)) 0x4 = 0) ->
  UART_WriteChar_wait udev fuel h = OutOfFuel.
Proof.
  induction fuel as [|fuel IH]; intros h Hnever; [reflexivity|].
  cbn [UART_WriteChar_wait]. unfold ubind, UART_In32.
  pose proof (Hnever 0%nat) as H0. cbn [after_polls] in H0.
  rewrite H0. cbn [Z.eqb].
  apply IH. intros j. exact (Hnever (S j)).
Qed.

(** X15: when the status register shows TX empty (bit 2) within k polls from
    every history, UART_WriteChar returns for every poll budget of at least
    k, and its accesses are these: status reads up to and including the
    first one that shows the bit, none of the earlier ones showing it; one
    write of the character to UART_TX; status reads again up to and
    including the first one that shows the bit.  It writes nothing else. *)
Theorem UART_WriteChar_sends k fuel data h :
  shows_within udev 0x4 k -> (k <= fuel)%nat ->
  exists j1 j2 h1 h',
    (j1 < k)%nat /\ (j2 < k)%nat /\
    UART_WriteChar udev fuel data h = Ok (tt, h') /\
    first_shown udev 0x4 h j1 /\
    h1 = UartOut UART_TX (u32 data) :: after_polls udev (S j1) h /\
    first_shown udev 0x4 h1 j2 /\
    h' = after_polls udev (S j2) h1 /\
    uart_writes_of UART_TX h' = uart_writes_of UART_TX h ++ [u32 data] /\
    uart_writes_of UART_CNTRL h' = uart_writes_of UART_CNTRL h.
Proof.
  intros Hready Hfuel.
  destruct (UART_WriteChar_run k fuel data h Hready Hfuel)
    as (j1 & j2 & Hj1 & Hj2 & Hrun & Hfirst1 & Hfirst2).
  exists j1, j2. eexists. eexists.
  split; [assumption|]. split; [assumption|].
  split; [exact Hrun|]. split; [assumption|]. split; [reflexivity|].
  split; [assumption|]. split; [reflexivity|].
  rewrite !after_polls_writes. cbn [uart_writes_of uart_reg_eqb].
  rewrite !after_polls_writes. split; reflexivity.
Qed.

(** X16: UART_WriteChar has no timeout, and until TX empty shows it does
    nothing but read the status register: when none of the status reads
    that follow the history at the call shows TX empty, whatever the
    register would show once anything had been written, the call does not
    return, however many polls it is given. *)
Theorem UART_WriteChar_blocks fuel data h :
  (forall j, Z.land (u32 (udev (after_polls udev j h) UART_STAT)) 0x4 = 0) ->
  UART_WriteChar udev fuel data h = OutOfFuel.
Proof.
  intros Hnever.
  unfold UART_WriteChar, ubind.
  now rewrite UART_WriteChar_wait_blocks.
Qed.

(** X17: when the status register shows RX valid within k polls from every
    history, UART_ReadChar returns, for every poll budget of at least k, the
    low eight bits of the value it reads from UART_RX; after the read it
    writes UART_RST_RX | UART_RST_TX to the control register, which resets
    both FIFOs, exactly when the character is a line feed or a carriage
    return, and writes nothing otherwise. *)
Theorem UART_ReadChar_spec k fuel h :
  shows_within udev UART_RX_VALID k -> (k <= fuel)%nat ->
  exists j,
    (j < k)%nat /\
    let h1 := after_polls udev (S j) h in
    let v := u32 (udev h1 UART_RX) in
    let c := Z.land v 0xFF in
    UART_ReadChar udev fuel h =
      Ok (c, (if (c =? 10) || (c =? 13)
              then [UartOut UART_CNTRL (u32 (Z.lor UART_RST_RX UART_RST_TX))]
              else [])
             ++ UartIn UART_RX v :: h1).
Proof.
  intros Hready Hfuel.
  destruct (Hready h) as (j & Hj & Hset & Hclr).
  exists j. split; [assumption|]. intros h1 v c.
  unfold UART_ReadChar. unfold ubind at 1.
  rewrite (UART_ReadChar_wait_returns j) by (assumption || lia).
  fold h1. unfold ubind, UART_In32, UART_Out32, uret. fold v.
  assert (Hc : to_char (Z.land v 0xFF) = c).
  { apply to_char_small. unfold c. change 0xFF with (Z.ones 8).
    rewrite Z.land_ones by lia. apply Z.mod_pos_bound. lia. }
  rewrite Hc. destruct ((c =? 10) || (c =? 13)); reflexivity.
Qed.


(** X19: UART_Init returns 0 whatever the baud rate is, after one write to
    the control register; the value has a one at every position where
    UART_RST_TX or UART_RST_RX has a one and at every position where
    UART_EN_INTR has a zero. *)
Theorem UART_Init_spec baudRate h i :
  0 <= i < 32 ->
  exists v,
    UART_Init baudRate h = Ok (0, UartOut UART_CNTRL v :: h) /\
    Z.testbit v i =
      Z.testbit UART_RST_TX i || Z.testbit UART_RST_RX i
      || negb (Z.testbit UART_EN_INTR i).
Proof.
  intros Hi. eexists. split; [reflexivity|].
  rewrite u32_testbit, !Z.lor_spec, Z.lnot_spec by lia.
  destruct (Z.ltb_spec i 32); [reflexivity | lia].
Qed.

End UART_props.

(** The UART of the examples shows both flags within three polls. *)
Lemma uart_every_third_shows mask :
  Z.land 0x05 mask <> 0 -> shows_within uart_every_third mask 3.
Proof.
  intros Hmask h.
  assert (Hval : forall j,
    u32 (uart_every_third (after_polls uart_every_third j h) UART_STAT)
    = if (Z.of_nat j + Z.of_nat (length h)) mod 3 =? 2 then 0x05 else 0).
  { intros j. unfold uart_every_third at 1.
    rewrite after_polls_length, Nat2Z.inj_add.
    destruct (_ =? 2); reflexivity. }
  pose proof (Z.mod_pos_bound (Z.of_nat (length h)) 3 ltac:(lia)) as Hr.
  assert (Hcases : Z.of_nat (length h) mod 3 = 0 \/
                   Z.of_nat (length h) mod 3 = 1 \/
                   Z.of_nat (length h) mod 3 = 2) by lia.
  assert (Hadd : forall j, (Z.of_nat j + Z.of_nat (length h)) mod 3
                 = (Z.of_nat j + Z.of_nat (length h) mod 3) mod 3).
  { intros j. now rewrite Z.add_mod_idemp_r by lia. }
  destruct Hcases as [H|[H|H]].
  - exists 2%nat. split; [lia|]. split.
    + rewrite Hval, Hadd, H. exact Hmask.
    + intros i Hi. rewrite Hval, Hadd, H.
      destruct i as [|[|i]]; [reflexivity | reflexivity | lia].
  - exists 1%nat. split; [lia|]. split.
    + rewrite Hval, Hadd, H. exact Hmask.
    + intros i Hi. rewrite Hval, Hadd, H.
      destruct i as [|i]; [reflexivity | lia].
  - exists 0%nat. split; [lia|]. split.
    + rewrite Hval, Hadd, H. exact Hmask.
    + intros i Hi. lia.
Qed.

(** ** The further theorems at concrete inputs *)

(** A poll of the stalled peripheral uses up its countdown. *)
Lemma SPI_Write_stalled_exhausted :
  spi_poll_exhausted (run_events (SPI_Write dev_stalled 0 3) demo_state) = true.
Proof. vm_compute. reflexivity. Qed.

(** The slave that delivers two bytes makes the third poll use up its
    countdown. *)
Lemma I2C_Read_two_bytes_exhausted :
  i2c_poll_exhausted (run_events (I2C_Read dev_two_bytes 0x50 3 1) demo_state)
  = true.
Proof.
  apply (I2C_Read_short_read dev_two_bytes 0x50 3 1 demo_state 2).
  - lia.
  - simpl. lia.
  - lia.
  - intros E. cbn [trace demo_state]. rewrite app_nil_r.
    unfold dev_two_bytes.
    destruct (count rx_read E <? 2); reflexivity.
Qed.

Lemma SPI_Write_preserves_witness :
  exists r s',
    SPI_Write dev_ready 0 3 demo_state = Ok (r, s') /\
    configValue s' = 0x1C6 /\
    length (mem s') = 4%nat /\
    skipn 3 (mem s') = [0x44].
Proof.
  refine (SPI_Write_preserves dev_ready 0 3 demo_state _ _).
  - lia.
  - simpl. lia.
Defined.

Lemma SPI_Write_transmits_buffer_witness :
  writes_of (SPI_BASEADDR SPIDTR)
    (run_events (SPI_Write dev_ready 0 3) demo_state) = [0x11; 0x22; 0x33] /\
  count spidrr_read (run_events (SPI_Write dev_ready 0 3) demo_state) = 3.
Proof.
  refine (SPI_Write_transmits_buffer dev_ready 0 3 demo_state _ _ _).
  - lia.
  - simpl. lia.
  - vm_compute. reflexivity.
Defined.

Lemma SPI_Write_timeout_partial_witness :
  exists s' k,
    SPI_Write dev_stalled 0 3 demo_state = Ok (255, s') /\
    k = count spidrr_read (run_events (SPI_Write dev_stalled 0 3) demo_state) /\
    0 <= k < 3 /\
    mem s' =
      map u8 (reads_of (SPI_BASEADDR SPIDRR)
                (run_events (SPI_Write dev_stalled 0 3) demo_state))
      ++ skipn (Z.to_nat k) (mem demo_state) /\
    writes_of (SPI_BASEADDR SPIDTR)
      (run_events (SPI_Write dev_stalled 0 3) demo_state)
      = firstn (Z.to_nat (k + 1)) (mem demo_state).
Proof.
  refine (SPI_Write_timeout_partial dev_stalled 0 3 demo_state _ _ _).
  - lia.
  - simpl. lia.
  - exact SPI_Write_stalled_exhausted.
Defined.

Lemma SPI_Write_status_reads_bounded_witness :
  count spisr_read (run_events (SPI_Write dev_ready 0 3) demo_state)
  <= 3 * 0x10000.
Proof.
  refine (SPI_Write_status_reads_bounded dev_ready 0 3 demo_state _ _).
  - lia.
  - simpl. lia.
Defined.

Lemma SPI_Write_255_result_witness :
  exists s',
    SPI_Write dev_ready 0 255 (mkState 0x1C6 (repeat 0x5A 255) [])
    = Ok (255, s').
Proof.
  refine (SPI_Write_255_result dev_ready 0
            (mkState 0x1C6 (repeat 0x5A 255) []) _).
  cbn [mem]. rewrite repeat_length. lia.
Defined.

Lemma SPI_Read_full_duplex_witness :
  exists r s',
    SPI_Read dev_ready 0 200 demo_state_255 = Ok (r, s') /\
    char_value false r = 200 /\
    char_value true r = -56 /\
    mem s' =
      map u8 (reads_of (SPI_BASEADDR SPIDRR)
                (run_events (SPI_Read dev_ready 0 200) demo_state_255))
      ++ repeat 0x5A 55 /\
    writes_of (SPI_BASEADDR SPIDTR)
      (run_events (SPI_Read dev_ready 0 200) demo_state_255) = repeat 0x5A 200.
Proof.
  refine (SPI_Read_full_duplex dev_ready 0 200 demo_state_255 _ _ _).
  - lia.
  - vm_compute. repeat constructor.
  - vm_compute. reflexivity.
Defined.

Lemma SPI_Init_spec_witness :
  exists s',
    SPI_Init 1 1000000 1 0 demo_state = Ok (0, s') /\
    mem s' = mem demo_state /\
    rev (run_events (SPI_Init 1 1000000 1 0) demo_state) =
      [Out32 (SPI_BASEADDR SPISSR) 0xFFFFFFFF;
       Out32 (SPI_BASEADDR SPICR) (configValue s')] /\
    0 <= configValue s' < 2 ^ 32 /\
    Z.testbit (configValue s') 8 = true /\
    configValue (SPI_Init_calls [(1, 1000000, 1, 0)] s') = configValue s'.
Proof.
  refine (SPI_Init_spec 1 1000000 1 0 demo_state _).
  vm_compute. split; [discriminate | reflexivity].
Defined.

Lemma SPI_Write_after_SPI_Init_witness :
  exists r s2,
    SPI_Write dev_ready 0 3 (mkState 0x3DE [0x11; 0x22; 0x33; 0x44]
         [Out32 (SPI_BASEADDR SPICR) 0x3DE;
          Out32 (SPI_BASEADDR SPISSR) 0xFFFFFFFF]) = Ok (r, s2) /\
    last_write (SPI_BASEADDR SPICR) (trace s2) = Some 0x3DE /\
    last_write (SPI_BASEADDR SPISSR) (trace s2) = Some 0xFFFFFFFF /\
    configValue s2 = 0x3DE.
Proof.
  refine (SPI_Write_after_SPI_Init dev_ready 1 1000000 1 0 0 3
            (mkState 0 [0x11; 0x22; 0x33; 0x44] []) 0 _ _ _ _ _).
  - vm_compute. split; [discriminate | reflexivity].
  - reflexivity.
  - lia.
  - simpl. lia.
Defined.

Lemma I2C_Read_outcomes_witness :
  exists r s' polls tail,
    I2C_Read dev_ready 0x50 3 1 demo_state = Ok (r, s') /\
    rev (run_events (I2C_Read dev_ready 0x50 3 1) demo_state) =
      [Out32 (I2C_BASEADDR CR) 0x002;
       Out32 (I2C_BASEADDR CR) 0x001;
       DelayMs 10;
       Out32 (I2C_BASEADDR TX_FIFO) 0x1A1;
       Out32 (I2C_BASEADDR TX_FIFO) 0x203]
      ++ polls ++ tail /\
    Forall (fun e => is_read e = true) polls /\
    ((i2c_poll_exhausted (run_events (I2C_Read dev_ready 0x50 3 1) demo_state)
      = false /\ r = 3 /\ tail = [DelayMs 10]) \/
     (i2c_poll_exhausted (run_events (I2C_Read dev_ready 0x50 3 1) demo_state)
      = true /\ r < 3 /\ tail = rev i2c_recovery_events)).
Proof.
  refine (I2C_Read_outcomes dev_ready 0x50 3 1 demo_state _ _).
  - lia.
  - simpl. lia.
Defined.

Lemma I2C_Read_buffer_witness :
  exists r s',
    I2C_Read dev_two_bytes 0x50 3 1 demo_state = Ok (r, s') /\
    0 <= r <= 3 /\
    r = count rx_read (run_events (I2C_Read dev_two_bytes 0x50 3 1) demo_state) /\
    mem s' =
      map u8 (reads_of (I2C_BASEADDR RX_FIFO)
                (run_events (I2C_Read dev_two_bytes 0x50 3 1) demo_state))
      ++ skipn (Z.to_nat r) (mem demo_state) /\
    configValue s' = 0x1C6.
Proof.
  refine (I2C_Read_buffer dev_two_bytes 0x50 3 1 demo_state _ _).
  - lia.
  - simpl. lia.
Defined.

Lemma I2C_Read_status_reads_bounded_witness :
  count sr_read (run_events (I2C_Read dev_two_bytes 0x50 3 1) demo_state)
  <= 3 * 0x1000000.
Proof.
  refine (I2C_Read_status_reads_bounded dev_two_bytes 0x50 3 1 demo_state _ _).
  - lia.
  - simpl. lia.
Defined.

Lemma I2C_Read_recovery_is_I2C_Init_witness :
  firstn 4 (run_events (I2C_Read dev_two_bytes 0x50 3 1) demo_state)
  = run_events (I2C_Init 100000) demo_state.
Proof.
  refine (I2C_Read_recovery_is_I2C_Init dev_two_bytes 0x50 3 1 demo_state
            100000 demo_state _ _ _).
  - lia.
  - simpl. lia.
  - exact I2C_Read_two_bytes_exhausted.
Defined.

Lemma I2C_address_is_7_bit_witness :
  I2C_Read dev_ready (0x50 + 128) 3 1 demo_state
  = I2C_Read dev_ready 0x50 3 1 demo_state /\
  I2C_Write (0x50 + 128) 3 1 demo_state = I2C_Write 0x50 3 1 demo_state.
Proof.
  refine (I2C_address_is_7_bit dev_ready 0x50 3 1 demo_state _).
  lia.
Defined.

Lemma UART_WriteChar_sends_witness :
  exists j1 j2 h1 h',
    (j1 < 3)%nat /\ (j2 < 3)%nat /\
    UART_WriteChar uart_every_third 3 0x48 [] = Ok (tt, h') /\
    first_shown uart_every_third 0x4 [] j1 /\
    h1 = UartOut UART_TX 0x48 :: after_polls uart_every_third (S j1) [] /\
    first_shown uart_every_third 0x4 h1 j2 /\
    h' = after_polls uart_every_third (S j2) h1 /\
    uart_writes_of UART_TX h' = [0x48] /\
    uart_writes_of UART_CNTRL h' = [].
Proof.
  refine (UART_WriteChar_sends uart_every_third 3 3 0x48 [] _ _).
  - apply uart_every_third_shows. discriminate.
  - lia.
Defined.

Lemma UART_WriteChar_blocks_witness :
  UART_WriteChar uart_empty_after_write 1000 0x48 [] = OutOfFuel.
Proof.
  refine (UART_WriteChar_blocks uart_empty_after_write 1000 0x48 [] _).
  intros j. unfold uart_empty_after_write at 1.
  rewrite after_polls_writes. reflexivity.
Defined.

Lemma UART_ReadChar_spec_witness :
  exists j,
    (j < 3)%nat /\
    let h1 := after_polls uart_every_third (S j) [] in
    let v := u32 (uart_every_third h1 UART_RX) in
    let c := Z.land v 0xFF in
    UART_ReadChar uart_every_third 3 [] =
      Ok (c, (if (c =? 10) || (c =? 13)
              then [UartOut UART_CNTRL 0x03]
              else [])
             ++ UartIn UART_RX v :: h1).
Proof.
  refine (UART_ReadChar_spec uart_every_third 3 3 [] _ _).
  - apply uart_every_third_shows. discriminate.
  - lia.
Defined.


Lemma UART_Init_spec_witness :
  exists v,
    UART_Init 9600 [] = Ok (0, [UartOut UART_CNTRL v]) /\
    Z.testbit v 4 = false.
Proof.
  refine (UART_Init_spec 9600 [] 4 _). lia.
Defined.
